(** * WebcamClassifier: an online k-NN classifier over SqueezeNet logits

    Shallow embedding of [src/webfront_v5/WebcamClassifier.js].

    - The deeplearn.js arrays ([NDArray]) are a shape and a flat, row-major
      buffer of numbers; numbers are exact reals.
    - The classifier object is a record; its methods are computations in a
      state-and-exception monad [M].  A JavaScript exception leaves every
      mutation made before it in place, so an outcome always comes with the
      state the object is left in.
    - SqueezeNet, the webcam and the scheduling of ticks are outside the
      class: a tick receives the logits SqueezeNet infers for the frame on
      screen. *)

From Stdlib Require Import Reals Lra Lia List.
From stdpp Require Import base list strings gmap.
Import ListNotations.

(** ** Constants *)

Definition IMAGE_SIZE : nat := 227.
Definition INPUT_SIZE : nat := 1000.
Definition TOPK : nat := 10.
Definition CLASS_COUNT : nat := 3.
Definition MEASURE_TIMING_EVERY_NUM_FRAMES : nat := 20.

(** ** Outcomes of JavaScript code *)

Inductive Exn : Type :=
| TypeError        (* a property read or a method call on null / undefined *)
| AssertionError.  (* a failed assertion of the tensor library *)

Inductive Outcome (A : Type) : Type :=
| Val (a : A)
| Throw (e : Exn).
Arguments Val {A} a.
Arguments Throw {A} e.

Definition Eff (S A : Type) : Type := S → Outcome A * S.

Definition eff_ret {S A} (a : A) : Eff S A := λ s, (Val a, s).
Definition eff_bind {S A B} (f : A → Eff S B) (m : Eff S A) : Eff S B :=
  λ s, match m s with
       | (Val a, s') => f a s'
       | (Throw e, s') => (Throw e, s')
       end.
Definition throw {S A} (e : Exn) : Eff S A := λ s, (Throw e, s).
Definition gets {S A} (f : S → A) : Eff S A := λ s, (Val (f s), s).
Definition modify {S} (f : S → S) : Eff S unit := λ s, (Val tt, f s).
Definition liftO {S A} (o : Outcome A) : Eff S A := λ s, (o, s).

Global Instance Eff_ret {S} : MRet (Eff S) := λ A, eff_ret.
Global Instance Eff_bind {S} : MBind (Eff S) := λ A B, eff_bind.

(** ** The tensor library, as far as the class uses it

    [vendor/deeplearn.js] is not under [src/]; the definitions of this
    module give its arrays and the operations the class calls. *)

Module NDArray.

(** Modelled from the spec: the array type of the tensor runtime, which is
    not under [src/]: a shape and a flat row-major buffer ("matrix",
    "fixed-length numeric vector"). *)
Record t : Type := make { shape : list nat; values : list R }.

(** Modelled from the spec: the element count of a shape, of the runtime. *)
Definition sizeFromShape (s : list nat) : nat := foldr Nat.mul 1 s.

(** Modelled from the spec: [ndarray.size], of the runtime. *)
Definition size (a : t) : nat := sizeFromShape (shape a).

(** Modelled from the spec: [reshape] of the runtime, behind [as1D], [as2D]
    and [as3D]: the buffer is kept under a new shape, and the runtime
    asserts that the element count is unchanged. *)
Definition reshape (newShape : list nat) (a : t) : Outcome t :=
  if size a =? sizeFromShape newShape
  then Val (make newShape (values a))
  else Throw AssertionError.

(** Modelled from the spec: [ndarray.as1D()], of the runtime. *)
Definition as1D (a : t) : Outcome t := reshape [size a] a.

(** Modelled from the spec: [ndarray.as2D(rows, columns)], of the runtime. *)
Definition as2D (rows columns : nat) (a : t) : Outcome t :=
  reshape [rows; columns] a.

(** Modelled from the spec: [ndarray.as3D(rows, columns, depth)], of the
    runtime. *)
Definition as3D (rows columns depth : nat) (a : t) : Outcome t :=
  reshape [rows; columns; depth] a.

(** Modelled from the spec: [math.concat3D(a, b, 0)] of the runtime
    ("concatenates ... into one matrix"): both arrays are rank 3 and agree
    on the other two axes; the rows of [b] follow those of [a]. *)
Definition concat3D_axis0 (a b : t) : Outcome t :=
  match shape a, shape b with
  | [r1; c1; d1], [r2; c2; d2] =>
      if (c1 =? c2) && (d1 =? d2)
      then Val (make [r1 + r2; c1; d1] (values a ++ values b))
      else Throw AssertionError
  | _, _ => Throw AssertionError
  end.

(** Modelled from the spec: [math.clone] of the runtime; it reads the shape
    and the buffer of its argument, a TypeError on null. *)
Definition clone (a : option t) : Outcome t :=
  match a with
  | Some a => Val a
  | None => Throw TypeError
  end.

(** Modelled from the spec: [math.divide(a, s)] of the runtime with a
    scalar [s] ("divide by a fixed constant", "divide by the square
    root"). *)
Definition divide (a : t) (s : R) : t :=
  make (shape a) (map (λ x, x / s)%R (values a)).

(** Modelled from the spec: [math.multiplyStrict] of the runtime, the
    element-wise product. *)
Definition multiplyStrict (a b : t) : t :=
  make (shape a) (zip_with Rmult (values a) (values b)).

(** Modelled from the spec: [math.sum] of the runtime ("the sum of
    squares"). *)
Definition sum (a : t) : R := foldr Rplus 0%R (values a).

(** Row [i] of a buffer with [columns] entries per row. *)
Definition row (columns : nat) (buf : list R) (i : nat) : list R :=
  take columns (drop (i * columns) buf).

Definition dot (u v : list R) : R := foldr Rplus 0%R (zip_with Rmult u v).

(** Modelled from the spec: [math.matMul(a, b)] of the runtime, for [a] of
    shape [n; k] and a column [b] of shape [k; 1]: the [n] dot products of
    the rows of [a] with [b] ("similarity (dot product) between the query
    vector and every row of the reference set"). *)
Definition matMul (a b : t) : Outcome t :=
  match shape a, shape b with
  | [n; k], [k'; 1] =>
      if k =? k'
      then Val (make [n; 1]
                  (map (λ i, dot (row k (values a) i) (values b)) (seq 0 n)))
      else Throw AssertionError
  | _, _ => Throw AssertionError
  end.

End NDArray.

Abbreviation NDArray := NDArray.t.

(** ** The classifier object *)

Record ClassEntry : Type := mkClassEntry { index : nat; sampleCount : nat }.

(** [classes] is the object keyed by class name; [current] aliases one of
    its entries, so it is the key of that entry ([None] is null). *)
Record WebcamClassifier : Type := mkWebcamClassifier {
  classNames : list string;
  classes : gmap string ClassEntry;
  isDown : bool;
  current : option string;
  trainLogitsMatrix : option NDArray;
  measureTimingCounter : nat;
  trainClassLogitsMatrices : list (option NDArray);
  classExampleCount : list nat
}.

Definition set_classes (f : gmap string ClassEntry → gmap string ClassEntry)
    (st : WebcamClassifier) : WebcamClassifier :=
  mkWebcamClassifier (classNames st) (f (classes st)) (isDown st) (current st)
    (trainLogitsMatrix st) (measureTimingCounter st)
    (trainClassLogitsMatrices st) (classExampleCount st).

Definition set_isDown (b : bool) (st : WebcamClassifier) : WebcamClassifier :=
  mkWebcamClassifier (classNames st) (classes st) b (current st)
    (trainLogitsMatrix st) (measureTimingCounter st)
    (trainClassLogitsMatrices st) (classExampleCount st).

Definition set_current (c : option string) (st : WebcamClassifier)
    : WebcamClassifier :=
  mkWebcamClassifier (classNames st) (classes st) (isDown st) c
    (trainLogitsMatrix st) (measureTimingCounter st)
    (trainClassLogitsMatrices st) (classExampleCount st).

Definition set_trainLogitsMatrix (m : option NDArray) (st : WebcamClassifier)
    : WebcamClassifier :=
  mkWebcamClassifier (classNames st) (classes st) (isDown st) (current st)
    m (measureTimingCounter st)
    (trainClassLogitsMatrices st) (classExampleCount st).

Definition set_measureTimingCounter (n : nat) (st : WebcamClassifier)
    : WebcamClassifier :=
  mkWebcamClassifier (classNames st) (classes st) (isDown st) (current st)
    (trainLogitsMatrix st) n
    (trainClassLogitsMatrices st) (classExampleCount st).

Definition set_trainClassLogitsMatrices
    (f : list (option NDArray) → list (option NDArray))
    (st : WebcamClassifier) : WebcamClassifier :=
  mkWebcamClassifier (classNames st) (classes st) (isDown st) (current st)
    (trainLogitsMatrix st) (measureTimingCounter st)
    (f (trainClassLogitsMatrices st)) (classExampleCount st).

Definition set_classExampleCount (f : list nat → list nat)
    (st : WebcamClassifier) : WebcamClassifier :=
  mkWebcamClassifier (classNames st) (classes st) (isDown st) (current st)
    (trainLogitsMatrix st) (measureTimingCounter st)
    (trainClassLogitsMatrices st) (f (classExampleCount st)).

Definition M : Type → Type := Eff WebcamClassifier.

(** *** constructor *)

Fixpoint constructor_classes (names : list string) (index : nat)
    (acc : gmap string ClassEntry) : gmap string ClassEntry :=
  match names with
  | [] => acc
  | name :: rest =>
      constructor_classes rest (S index) (<[name := mkClassEntry index 0]> acc)
  end.

Definition constructor (options : list string) : WebcamClassifier :=
  {| classNames := options;
     classes := constructor_classes options 0 ∅;
     isDown := false;
     current := None;
     trainLogitsMatrix := None;
     measureTimingCounter := 0;
     trainClassLogitsMatrices := replicate CLASS_COUNT None;
     classExampleCount := replicate CLASS_COUNT 0 |}.

(** *** getNumExamples *)

Definition getNumExamples (st : WebcamClassifier) : nat :=
  foldl (λ total c, total + c) 0 (classExampleCount st).

(** *** getClassFromIndex

    The loop over [ind < CLASS_COUNT].  [prevSum] is [None] once it is NaN
    (an entry of [classExampleCount] that is undefined was added to it):
    every comparison with NaN is false.  The loop answers [Some ind] when it
    returns from its body and [None] when it runs out, where the method
    returns its fallback, 2. *)

Fixpoint getClassFromIndex_loop (counts : list nat) (index : nat)
    (fuel ind : nat) (prevSum : option nat) : option nat :=
  match fuel with
  | 0 => None
  | S fuel' =>
      match prevSum, counts !! ind with
      | Some p, Some c =>
          if index <? c + p then Some ind
          else getClassFromIndex_loop counts index fuel' (S ind) (Some (p + c))
      | _, _ => getClassFromIndex_loop counts index fuel' (S ind) None
      end
  end.

Definition getClassFromIndex (st : WebcamClassifier) (index : nat) : nat :=
  default 2 (getClassFromIndex_loop (classExampleCount st) index
               CLASS_COUNT 0 (Some 0)).

(** *** captureFrameSqueezeNetLogits

    [logits] is [inferenceResult.logits], what SqueezeNet infers for the
    frame on screen; the method squashes and normalises it. *)

Definition squashLogitsDenominator : R := 300%R.

Definition captureFrameSqueezeNetLogits (logits : NDArray) : NDArray :=
  let squashedLogits := NDArray.divide logits squashLogitsDenominator in
  let squared := NDArray.multiplyStrict squashedLogits squashedLogits in
  let sum := NDArray.sum squared in
  let sqrtSum := sqrt sum in
  NDArray.divide squashedLogits sqrtSum.
Arguments captureFrameSqueezeNetLogits : simpl never.

(** *** The selected class

    [this.current.index] and [this.current.sampleCount]: a TypeError when
    [this.current] is null. *)

Definition currentEntry : M (string * ClassEntry) :=
  λ st, match current st with
        | Some key =>
            match classes st !! key with
            | Some entry => (Val (key, entry), st)
            | None => (Throw TypeError, st)
            end
        | None => (Throw TypeError, st)
        end.

Definition currentIndex : M nat :=
  ke ← currentEntry; mret (index ke.2).

(** *** deleteClassData *)

Definition deleteClassData (index : nat) : M unit :=
  m ← gets (λ st, trainClassLogitsMatrices st !! index);
  match m with
  | Some (Some _) =>
      (* this.trainClassLogitsMatrices[index].dispose() *)
      modify (set_trainClassLogitsMatrices <[index := None]>);;
      (* this.trainLogitsMatrix.dispose() *)
      t ← gets trainLogitsMatrix;
      (match t with
       | Some _ => mret ()
       | None => throw TypeError
       end);;
      modify (set_trainLogitsMatrix None);;
      modify (set_classExampleCount <[index := 0]>);;
      (* this.classes[this.classNames[index]].sampleCount = 0 *)
      name ← gets (λ st, default "undefined" (classNames st !! index));
      entry ← gets (λ st, classes st !! name);
      match entry with
      | Some (mkClassEntry i _) =>
          modify (set_classes <[name := mkClassEntry i 0]>)
      | None => throw TypeError
      end
  | _ => mret ()
  end.

(** *** saveTrainingLogits *)

Definition saveTrainingLogits (frame : NDArray) : M unit :=
  t ← gets trainLogitsMatrix;
  (match t with
   | Some _ => modify (set_trainLogitsMatrix None)
   | None => mret ()
   end);;
  let logits := captureFrameSqueezeNetLogits frame in
  idx ← currentIndex;
  m ← gets (λ st, trainClassLogitsMatrices st !! idx);
  (match m with
   | Some None =>
       first ← liftO (NDArray.as3D 1 INPUT_SIZE 1 logits);
       modify (set_trainClassLogitsMatrices <[idx := Some first]>)
   | Some (Some old) =>
       count ← gets (λ st, classExampleCount st !! idx);
       old3 ← liftO (match count with
                     | Some n => NDArray.as3D n INPUT_SIZE 1 old
                     | None => Throw AssertionError
                     end);
       new3 ← liftO (NDArray.as3D 1 INPUT_SIZE 1 logits);
       newTrainLogitsMatrix ← liftO (NDArray.concat3D_axis0 old3 new3);
       modify (set_trainClassLogitsMatrices <[idx := Some newTrainLogitsMatrix]>)
   | None => throw TypeError
   end);;
  modify (set_classExampleCount (alter S idx)).

(** *** buttonDown, buttonUp

    [this.classes] is a plain object, and [classes] holds its own
    properties, the entries the constructor stores.  [this.classes[id]] is
    read as the lookup among them.  For an id that is no configured class
    and names a member of [Object.prototype] ([objectPrototype] below)
    JavaScript finds that member instead of undefined, so [this.current]
    becomes a function: such ids are outside this model, and what is
    stated about unknown ids leaves them out. *)

Definition buttonDown (id : string) : M unit :=
  entry ← gets (λ st, classes st !! id);
  modify (set_current (match entry with Some _ => Some id | None => None end));;
  modify (set_isDown true);;
  (* this.classes[id].classObj.sampleCallback *)
  match entry with
  | Some _ => mret ()
  | None => throw TypeError
  end.

Definition buttonUp : M unit :=
  modify (set_isDown false);;
  modify (set_current None).

(** *** concat *)

Definition concat (ndarray1 ndarray2 : option NDArray) : Outcome (option NDArray) :=
  match ndarray1, ndarray2 with
  | None, _ => Val ndarray2
  | _, None => Val ndarray1
  | Some a1, Some a2 =>
      match NDArray.shape a1 !! 0, NDArray.shape a2 !! 0 with
      | Some r1, Some r2 =>
          match NDArray.as3D r1 INPUT_SIZE 1 a1, NDArray.as3D r2 INPUT_SIZE 1 a2 with
          | Val b1, Val b2 =>
              match NDArray.concat3D_axis0 b1 b2 with
              | Val c => Val (Some c)
              | Throw e => Throw e
              end
          | Throw e, _ => Throw e
          | _, Throw e => Throw e
          end
      | _, _ => Throw AssertionError
      end
  end.

(** The rebuild loop of [animate], [index] running up to [CLASS_COUNT].  An
    entry that is undefined ends in a TypeError: in [concat] when an array
    has been accumulated, in [math.clone] otherwise. *)
Fixpoint rebuild_loop (matrices : list (option NDArray)) (fuel index : nat)
    (newTrainLogitsMatrix : option NDArray) : Outcome (option NDArray) :=
  match fuel with
  | 0 => Val newTrainLogitsMatrix
  | S fuel' =>
      match matrices !! index with
      | Some m =>
          match concat newTrainLogitsMatrix m with
          | Val acc => rebuild_loop matrices fuel' (S index) acc
          | Throw e => Throw e
          end
      | None => Throw TypeError
      end
  end.

(** What a tick hands to the callbacks of [options]: the sample count to
    [sampleCallback], the confidences to [setConfidences], or nothing. *)
Inductive Tick : Type :=
| Recorded (sampleCount : nat)
| Classified (confidences : list R)
| Rescheduled.

Section Classification.

(** [mathCPU.topK(knn, k).indices.getValues()], of the tensor runtime, which
    is not under [src/]: a parameter. *)
Variable topK : list R → nat → list nat.

(** *** computeConfidences, the continuation of a classifying tick *)

Definition classTopKMap (st : WebcamClassifier) (indices : list nat) : list nat :=
  foldl (λ acc i, alter S (getClassFromIndex st i) acc) [0; 0; 0] indices.

Definition computeConfidences (knn : NDArray) (numExamples : nat) : M Tick :=
  let kVal := Nat.min TOPK numExamples in
  let indices := topK (NDArray.values knn) kVal in
  counts ← gets (λ st, classTopKMap st indices);
  let confidences :=
    map (λ index, (INR (counts !!! index) / INR kVal)%R) (seq 0 CLASS_COUNT) in
  modify (λ st, set_measureTimingCounter
                  ((measureTimingCounter st + 1) `mod` MEASURE_TIMING_EVERY_NUM_FRAMES) st);;
  mret (Classified confidences).

(** *** animate

    The three branches of the method are [animate_record],
    [animate_classify] and the bare rescheduling.  The method ends a
    classifying tick by scheduling [computeConfidences]
    ([knn.getValuesAsync().then] or [setTimeout]) and returns;
    [computeConfidences] runs later, on the object as it is by then.
    [animate_classify] and [animate] are a tick together with its
    continuation, for the runs in which no call to the object comes between
    the two; the two halves on their own are [animate_begin] and
    [animate_end] below. *)

Definition animate_record (frame : NDArray) : M Tick :=
  (* the argument this.current.index, then the call *)
  _ ← currentIndex;
  saveTrainingLogits frame;;
  ke ← currentEntry;
  let n := sampleCount ke.2 + 1 in
  modify (set_classes <[ke.1 := mkClassEntry (index ke.2) n]>);;
  mret (Recorded n).

Definition rebuild : M unit :=
  newTrainLogitsMatrix ←
    (λ st, (rebuild_loop (trainClassLogitsMatrices st) CLASS_COUNT 0 None, st));
  cloned ← liftO (NDArray.clone newTrainLogitsMatrix);
  modify (set_trainLogitsMatrix (Some cloned)).

Definition animate_classify (frame : NDArray) (numExamples : nat) : M Tick :=
  let frameLogits := captureFrameSqueezeNetLogits frame in
  t ← gets trainLogitsMatrix;
  (match t with
   | None => rebuild
   | Some _ => mret ()
   end);;
  t ← gets trainLogitsMatrix;
  train2 ← liftO (match t with
                  | Some a => NDArray.as2D numExamples 1000 a
                  | None => Throw TypeError
                  end);
  frame2 ← liftO (NDArray.as2D 1000 1 frameLogits);
  product ← liftO (NDArray.matMul train2 frame2);
  knn ← liftO (NDArray.as1D product);
  computeConfidences knn numExamples.

Definition animate (frame : NDArray) : M Tick :=
  λ st,
    if isDown st then animate_record frame st
    else if 0 <? getNumExamples st
         then animate_classify frame (getNumExamples st) st
         else (Val Rescheduled, st).

End Classification.

(** *** The two halves of a classifying tick

    [animate] ends a classifying tick by handing [computeConfidences] to
    [knn.getValuesAsync().then] or to [setTimeout]: the confidences are
    computed later, from the [knn] and [numExamples] of the tick and from
    the object as it is by then.  [animate_knn] is the tick up to there,
    the scope that computes [knn]; [computeConfidences] above is what runs
    later.  [animate_classify] is the two with no call to the object
    between them. *)

Definition animate_knn (frame : NDArray) (numExamples : nat) : M NDArray :=
  let frameLogits := captureFrameSqueezeNetLogits frame in
  t ← gets trainLogitsMatrix;
  (match t with
   | None => rebuild
   | Some _ => mret ()
   end);;
  t ← gets trainLogitsMatrix;
  train2 ← liftO (match t with
                  | Some a => NDArray.as2D numExamples 1000 a
                  | None => Throw TypeError
                  end);
  frame2 ← liftO (NDArray.as2D 1000 1 frameLogits);
  product ← liftO (NDArray.matMul train2 frame2);
  liftO (NDArray.as1D product).

(** What the first half of a tick leaves behind: the tick is over, or a
    classification waits for its similarities. *)
Inductive Begun : Type :=
| Finished (tick : Tick)
| Awaiting (knn : NDArray) (numExamples : nat).

(** [animate] up to where it returns.  A recording tick and a tick with
    nothing to do are over by then; a classifying tick has computed [knn]
    and left [computeConfidences] to run later. *)
Definition animate_begin (frame : NDArray) : M Begun :=
  λ st,
    if isDown st then (tick ← animate_record frame; mret (Finished tick)) st
    else if 0 <? getNumExamples st
         then (knn ← animate_knn frame (getNumExamples st);
               mret (Awaiting knn (getNumExamples st))) st
         else (Val (Finished Rescheduled), st).

(** What runs later. *)
Definition animate_end (topK : list R → nat → list nat) (b : Begun) : M Tick :=
  match b with
  | Finished tick => mret tick
  | Awaiting knn numExamples => computeConfidences topK knn numExamples
  end.

(** * Specification-side notions *)

(** Global index of the first row of class [c] in the reference set: the
    sum of the counts of the classes before [c]. *)
Definition classStart (counts : list nat) (c : nat) : nat :=
  sum_list (take c counts).

(** Row [i] lies in the cumulative range of class [c]. *)
Definition owns (counts : list nat) (c i : nat) : Prop :=
  c < length counts ∧
  classStart counts c ≤ i < classStart counts c + counts !!! c.

Global Instance owns_dec counts c i : Decision (owns counts c i).
Proof. unfold owns. apply _. Defined.

(** How many of the selected rows lie in the range of class [c]. *)
Definition votes (counts : list nat) (selected : list nat) (c : nat) : nat :=
  length (filter (λ i, owns counts c i) selected).

(** The example set of a class: the buffer of its matrix, nothing when the
    slot is null. *)
Definition exampleSet (m : option NDArray) : list R :=
  match m with
  | Some a => NDArray.values a
  | None => []
  end.

(** A class slot agrees with its counter: null with no example, otherwise a
    matrix of [count] rows of [INPUT_SIZE] logits. *)
Definition class_ok (m : option NDArray) (count : nat) : Prop :=
  match m with
  | None => count = 0
  | Some a => 0 < count ∧ NDArray.shape a = [count; INPUT_SIZE; 1]
  end.

(** The class matrices that exist, in class order: null slots are left
    out. *)
Definition storedMatrices (mats : list (option NDArray)) : list NDArray :=
  omap (λ m : option NDArray, m) mats.

(** The consistency of the object between two calls. *)
Record Inv (st : WebcamClassifier) : Prop := mkInv {
  inv_length : length (classExampleCount st) = CLASS_COUNT;
  inv_class : Forall2 class_ok (trainClassLogitsMatrices st) (classExampleCount st);
  inv_cache : ∀ t, trainLogitsMatrix st = Some t →
                   NDArray.size t = getNumExamples st * INPUT_SIZE;
  inv_names : ∀ key e, classes st !! key = Some e →
                       classNames st !! index e = Some key;
  inv_owner : ∀ i a, trainClassLogitsMatrices st !! i = Some (Some a) →
                     ∃ key e, classes st !! key = Some e ∧ index e = i
}.

(** The relation between counters and slots alone: a counter is positive
    exactly when its slot holds a matrix. *)
Definition countMatrixInv (st : WebcamClassifier) : Prop :=
  ∀ i count m,
    classExampleCount st !! i = Some count →
    trainClassLogitsMatrices st !! i = Some m →
    0 < count ↔ m ≠ None.

Definition exec {A} (m : M A) (st : WebcamClassifier) : WebcamClassifier :=
  (m st).2.

(** ** Sample data *)

(** Logits of a frame: [INPUT_SIZE] ones. *)
Definition frame_ones : NDArray :=
  NDArray.make [INPUT_SIZE] (replicate INPUT_SIZE 1%R).

(** A top-K that answers the first [k] rows: right whenever no later row is
    more similar, as when all stored examples are the same vector. *)
Definition firstK : list R → nat → list nat := λ _ k, seq 0 k.

Definition three_classes : WebcamClassifier := constructor ["A"; "B"; "C"].

(** Hold the button of class [id] for [n] ticks, then release it. *)
Definition hold (id : string) (n : nat) (st : WebcamClassifier) : WebcamClassifier :=
  exec buttonUp
    (Nat.iter n (exec (animate firstK frame_ones)) (exec (buttonDown id) st)).

(** Five examples of A, three of B, none of C. *)
Definition five_three : WebcamClassifier := hold "B" 3 (hold "A" 5 three_classes).

(** One example of A, recorded and not yet classified against. *)
Definition one_A : WebcamClassifier := hold "A" 1 three_classes.

(** ** Norms *)

Definition sumSquares (v : list R) : R := foldr Rplus 0%R (map (λ x, x * x)%R v).

Definition l2norm (v : list R) : R := sqrt (sumSquares v).

(** Logits of a frame: a three, a four, and zeros. *)
Definition frame_34 : NDArray :=
  NDArray.make [INPUT_SIZE] (3%R :: 4%R :: replicate 998 0%R).

Definition sumR (v : list R) : R := foldr Rplus 0%R v.

(** ** Notions for the ticks *)

(** The similarities of a frame with the rows of a training matrix [t] of
    [n] rows: one dot product per row. *)
Definition similarities (t frame : NDArray) (n : nat) : list R :=
  map (λ i, NDArray.dot (NDArray.row 1000 (NDArray.values t) i)
              (NDArray.values (captureFrameSqueezeNetLogits frame)))
    (seq 0 n).

(** The share of the votes of each class among the rows [topK] selects. *)
Definition shares (topK : list R → nat → list nat) (counts : list nat)
    (sims : list R) (n : nat) : list R :=
  map (λ c, (INR (votes counts (topK sims (Nat.min TOPK n)) c)
               / INR (Nat.min TOPK n))%R)
    (seq 0 CLASS_COUNT).


(** The count a class entry shows agrees with the counter of its class. *)
Definition countsAgree (st : WebcamClassifier) : Prop :=
  ∀ key e,
    classes st !! key = Some e → index e < CLASS_COUNT →
    classExampleCount st !! index e = Some (sampleCount e).

(** A classifier configured with four classes, the button of the fourth
    held. *)
Definition four_classes_D : WebcamClassifier :=
  exec (buttonDown "D") (constructor ["A"; "B"; "C"; "D"]).

(** [five_three] after one classifying tick: the training matrix is
    cached. *)
Definition five_three_cached : WebcamClassifier :=
  exec (animate firstK frame_ones) five_three.

(** The matrix in slot [i], the cached training matrix (an empty array when
    there is none). *)
Definition slotMatrix (st : WebcamClassifier) (i : nat) : NDArray :=
  match trainClassLogitsMatrices st !! i with
  | Some (Some a) => a
  | _ => NDArray.make [] []
  end.

Definition cachedMatrix (st : WebcamClassifier) : NDArray :=
  default (NDArray.make [] []) (trainLogitsMatrix st).

(** ** Driving the object

    What reaches the object from outside: the two button handlers, and the
    ticks of the animation loop with the logits of the frame on screen. *)

Inductive Event : Type :=
| ButtonDown (id : string)
| ButtonUp
| Frame (logits : NDArray).

Definition fire (topK : list R → nat → list nat) (ev : Event) : M (list Tick) :=
  match ev with
  | ButtonDown id => buttonDown id;; mret []
  | ButtonUp => buttonUp;; mret []
  | Frame logits => tick ← animate topK logits; mret [tick]
  end.

(** The events in turn; the first exception ends the run. *)
Fixpoint fireAll (topK : list R → nat → list nat) (evs : list Event)
    : M (list Tick) :=
  match evs with
  | [] => mret []
  | ev :: rest =>
      ticks ← fire topK ev;
      more ← fireAll topK rest;
      mret (ticks ++ more)
  end.

(** The ticks that come while a button is held, [down] telling whether one
    is held at the start. *)
Fixpoint recordings (down : bool) (evs : list Event) : nat :=
  match evs with
  | [] => 0
  | ButtonDown _ :: rest => recordings true rest
  | ButtonUp :: rest => recordings false rest
  | Frame _ :: rest => (if down then 1 else 0) + recordings down rest
  end.

(** Events a page with the classes [options] sends: buttons of configured
    classes, frames with [INPUT_SIZE] logits. *)
Definition wfEvent (options : list string) (ev : Event) : Prop :=
  match ev with
  | ButtonDown id => id ∈ options
  | ButtonUp => True
  | Frame logits => NDArray.size logits = INPUT_SIZE
  end.

(** What a run from the constructor keeps. *)
Record Good (options : list string) (st : WebcamClassifier) : Prop := mkGood {
  good_Inv : Inv st;
  good_agree : countsAgree st;
  good_names : classNames st = options;
  good_keys : ∀ id, id ∈ options → is_Some (classes st !! id);
  good_current : isDown st = true →
                 ∃ key, current st = Some key ∧ is_Some (classes st !! key)
}.

(** Two examples of A, a classifying tick, one example of B. *)
Definition sample_run : list Event :=
  [ButtonDown "A"; Frame frame_ones; Frame frame_ones; ButtonUp;
   Frame frame_ones; ButtonDown "B"; Frame frame_ones; ButtonUp].

(** The buffer of every class matrix has as many numbers as its shape
    says. *)
Definition BufOk (st : WebcamClassifier) : Prop :=
  ∀ i a, trainClassLogitsMatrices st !! i = Some (Some a) →
         length (NDArray.values a) = NDArray.size a.

(** ** The animation loop

    [startTimer], [stopTimer], [blur] and [focus] touch the fields [timer],
    [active] and [wasActive] and the video element, and nothing of the
    classifier data; [animate] touches [timer] at the end of each of its
    paths.  This part of the object is a record of its own, together with
    what the page holds for it: the animation-frame callbacks requested and
    neither run nor cancelled, the next request id (ids are nonzero, so a
    timer is truthy exactly when it is not null), and the classifications
    whose similarities are awaited. *)

Record Scheduling : Type := mkScheduling {
  timer : option nat;
  active : bool;
  wasActive : bool;
  videoPlaying : bool;
  callbacks : list nat;
  nextHandle : nat;
  awaited : nat
}.

(** The fields as the constructor leaves them. *)
Definition idle : Scheduling :=
  {| timer := None; active := false; wasActive := false;
     videoPlaying := false; callbacks := []; nextHandle := 1; awaited := 0 |}.

(** [this.timer = requestAnimationFrame(this.animate.bind(this))]. *)
Definition requestTimer (l : Scheduling) : Scheduling :=
  {| timer := Some (nextHandle l);
     active := active l; wasActive := wasActive l;
     videoPlaying := videoPlaying l;
     callbacks := callbacks l ++ [nextHandle l];
     nextHandle := S (nextHandle l);
     awaited := awaited l |}.

(** [cancelAnimationFrame(handle)]; nothing to cancel for null. *)
Definition cancelAnimationFrame (handle : option nat) (l : Scheduling)
    : Scheduling :=
  {| timer := timer l;
     active := active l; wasActive := wasActive l;
     videoPlaying := videoPlaying l;
     callbacks := match handle with
                  | Some h => filter (λ h', h' ≠ h) (callbacks l)
                  | None => callbacks l
                  end;
     nextHandle := nextHandle l;
     awaited := awaited l |}.

Definition stopTimer (l : Scheduling) : Scheduling :=
  cancelAnimationFrame (timer l)
    {| timer := timer l;
       active := false; wasActive := true;
       videoPlaying := false;
       callbacks := callbacks l;
       nextHandle := nextHandle l;
       awaited := awaited l |}.

Definition startTimer (l : Scheduling) : Scheduling :=
  let l1 := match timer l with
            | Some _ => stopTimer l
            | None => l
            end in
  requestTimer
    {| timer := timer l1;
       active := active l1; wasActive := true;
       videoPlaying := true;
       callbacks := callbacks l1;
       nextHandle := nextHandle l1;
       awaited := awaited l1 |}.

Definition blur (l : Scheduling) : Scheduling :=
  match timer l with
  | Some _ => stopTimer l
  | None => l
  end.

Definition focus (l : Scheduling) : Scheduling :=
  if wasActive l then startTimer l else l.

(** The page runs the callback [h]: it leaves the requested callbacks. *)
Definition runCallback (h : nat) (l : Scheduling) : Scheduling :=
  {| timer := timer l;
     active := active l; wasActive := wasActive l;
     videoPlaying := videoPlaying l;
     callbacks := filter (λ h', h' ≠ h) (callbacks l);
     nextHandle := nextHandle l;
     awaited := awaited l |}.


(** A tick of [animate] that classifies: it returns with the similarities
    awaited and no frame requested. *)
Definition tickClassify (h : nat) (l : Scheduling) : Scheduling :=
  let l1 := runCallback h l in
  {| timer := timer l1;
     active := active l1; wasActive := wasActive l1;
     videoPlaying := videoPlaying l1;
     callbacks := callbacks l1;
     nextHandle := nextHandle l1;
     awaited := S (awaited l1) |}.

(** [computeConfidences], run when the similarities are there: it requests
    the next frame. *)
Definition tickClassified (l : Scheduling) : Scheduling :=
  requestTimer
    {| timer := timer l;
       active := active l; wasActive := wasActive l;
       videoPlaying := videoPlaying l;
       callbacks := callbacks l;
       nextHandle := nextHandle l;
       awaited := pred (awaited l) |}.

(** No classification is awaited, and the only callback requested, if any,
    is the one [timer] names. *)
Definition oneLoop (l : Scheduling) : Prop :=
  awaited l = 0 ∧
  (callbacks l = [] ∨ ∃ h, timer l = Some h ∧ callbacks l = [h]).

(** The loop runs: a frame has been requested, under the handle in
    [timer]. *)
Definition running (l : Scheduling) : Prop :=
  ∃ h, timer l = Some h ∧ callbacks l = [h].

(** An example of A and an example of B, then A cleared before any
    classification: the call fails (C4) and leaves this object. *)
Definition A_B_cleared : WebcamClassifier :=
  exec (deleteClassData 0) (hold "B" 1 (hold "A" 1 three_classes)).

(** The property names every object inherits from [Object.prototype]:
    [this.classes[id]] finds a member of the prototype for these ids when
    no class has the name. *)
Definition objectPrototype : list string :=
  ["constructor"; "hasOwnProperty"; "isPrototypeOf"; "propertyIsEnumerable";
   "toLocaleString"; "toString"; "valueOf"; "__proto__";
   "__defineGetter__"; "__defineSetter__"; "__lookupGetter__";
   "__lookupSetter__"].

(** * Lemmas on counts and ranges *)

Lemma sum_list_snoc (l : list nat) (x : nat) :
  sum_list (l ++ [x]) = sum_list l + x.
Proof. induction l as [|y l IH]; simpl; lia. Qed.

Lemma foldl_plus_sum_list (l : list nat) (a : nat) :
  foldl (λ total c, total + c) a l = a + sum_list l.
Proof.
  revert a. induction l as [|x l IH]; intros a; simpl; [lia|].
  rewrite IH. lia.
Qed.

Lemma getNumExamples_sum st :
  getNumExamples st = sum_list (classExampleCount st).
Proof. unfold getNumExamples. now rewrite foldl_plus_sum_list. Qed.

Lemma classStart_S counts c x :
  counts !! c = Some x → classStart counts (S c) = classStart counts c + x.
Proof.
  intros H. unfold classStart. rewrite (take_S_r _ _ _ H).
  apply sum_list_snoc.
Qed.

Lemma classStart_mono counts c c' :
  c ≤ c' → classStart counts c ≤ classStart counts c'.
Proof.
  unfold classStart. revert c c'.
  induction counts as [|x l IH]; intros [|c] [|c'] Hle; simpl; try lia.
  specialize (IH c c'). lia.
Qed.

Lemma classStart_all counts n :
  length counts ≤ n → classStart counts n = sum_list counts.
Proof. intros H. unfold classStart. now rewrite take_ge. Qed.

Lemma owns_unique counts c c' i :
  owns counts c i → owns counts c' i → c = c'.
Proof.
  assert (Hlt : ∀ a b, a < b → owns counts a i → owns counts b i → False).
  { intros a b Hab [Ha [_ Hi]] [_ [Hb _]].
    destruct (lookup_lt_is_Some_2 counts a Ha) as [x Hx].
    rewrite (list_lookup_total_correct _ _ _ Hx) in Hi.
    pose proof (classStart_S _ _ _ Hx) as HS.
    pose proof (classStart_mono counts (S a) b Hab). lia. }
  intros Hc Hc'.
  destruct (Nat.lt_trichotomy c c') as [H|[H|H]]; [|done|].
  - destruct (Hlt _ _ H Hc Hc').
  - destruct (Hlt _ _ H Hc' Hc).
Qed.

(** The loop, started at class [ind] with the rows of the earlier classes
    behind it, stops at the owner of any row below the end of the classes
    it visits. *)
Lemma getClassFromIndex_loop_owner counts i fuel :
  ∀ ind,
    classStart counts ind ≤ i →
    ind + fuel ≤ length counts →
    i < classStart counts (ind + fuel) →
    ∃ c, getClassFromIndex_loop counts i fuel ind
           (Some (classStart counts ind)) = Some c
         ∧ owns counts c i.
Proof.
  induction fuel as [|fuel IH]; intros ind Hlo Hlen Hhi.
  - rewrite Nat.add_0_r in Hhi. lia.
  - destruct (lookup_lt_is_Some_2 counts ind ltac:(lia)) as [x Hx].
    pose proof (classStart_S _ _ _ Hx) as HS.
    simpl. rewrite Hx.
    destruct (Nat.ltb_spec i (x + classStart counts ind)) as [Hin|Hout].
    + exists ind. split; [done|]. split; [lia|].
      rewrite (list_lookup_total_correct _ _ _ Hx). lia.
    + rewrite <- HS. apply IH; [lia|lia|].
      now replace (S ind + fuel) with (ind + S fuel) by lia.
Qed.

(** * C1: rows map back to their class *)

(** C1.  In a classifier with its [CLASS_COUNT] counters, for every global
    row index [i] below the total example count, the loop of
    [getClassFromIndex] returns from its body (the fallback [return 2] is
    not reached), and what it returns is the class whose cumulative
    example-count range contains [i]; that class is unique. *)
Theorem getClassFromIndex_owner (st : WebcamClassifier) (i : nat) :
  length (classExampleCount st) = CLASS_COUNT →
  i < getNumExamples st →
  ∃ c,
    getClassFromIndex_loop (classExampleCount st) i CLASS_COUNT 0 (Some 0)
      = Some c
    ∧ getClassFromIndex st i = c
    ∧ owns (classExampleCount st) c i
    ∧ ∀ c', owns (classExampleCount st) c' i → c' = c.
Proof.
  intros Hlen Hi. rewrite getNumExamples_sum in Hi.
  destruct (getClassFromIndex_loop_owner (classExampleCount st) i CLASS_COUNT 0)
    as (c & Hloop & Hown).
  - unfold classStart. simpl. lia.
  - lia.
  - rewrite classStart_all; [done | simpl; lia].
  - change (classStart (classExampleCount st) 0) with 0 in Hloop.
    exists c. split; [done|]. split.
    + unfold getClassFromIndex. now rewrite Hloop.
    + split; [done|]. intros c' Hc'. eapply owns_unique; eassumption.
Qed.

(** * Running the monad *)

Ltac unfold_M :=
  unfold mbind, mret, Eff_bind, Eff_ret, eff_bind, eff_ret,
    throw, gets, modify, liftO in *.

Lemma bind_Val {A B} (m : M A) (f : A → M B) st a st' :
  m st = (Val a, st') → (m ≫= f) st = f a st'.
Proof. intros H. unfold_M. now rewrite H. Qed.

Lemma bind_Throw {A B} (m : M A) (f : A → M B) st e st' :
  m st = (Throw e, st') → (m ≫= f) st = (Throw e, st').
Proof. intros H. unfold_M. now rewrite H. Qed.

Lemma currentEntry_null st :
  current st = None → currentEntry st = (Throw TypeError, st).
Proof. intros H. unfold currentEntry. now rewrite H. Qed.

Lemma currentEntry_selected st key e :
  current st = Some key → classes st !! key = Some e →
  currentEntry st = (Val (key, e), st).
Proof. intros H1 H2. unfold currentEntry. now rewrite H1, H2. Qed.

Lemma currentIndex_null st :
  current st = None → currentIndex st = (Throw TypeError, st).
Proof.
  intros H. unfold currentIndex.
  now rewrite (bind_Throw _ _ _ _ _ (currentEntry_null st H)).
Qed.

Lemma currentIndex_selected st key e :
  current st = Some key → classes st !! key = Some e →
  currentIndex st = (Val (index e), st).
Proof.
  intros H1 H2. unfold currentIndex.
  now rewrite (bind_Val _ _ _ _ _ (currentEntry_selected st key e H1 H2)).
Qed.

(** * C5: clearing an empty class *)

(** C5.  [deleteClassData] on a class whose slot holds no matrix (null, or
    no slot at all) returns normally and leaves the whole object as it was:
    counts, example sets and the cached training matrix. *)
Theorem deleteClassData_empty (st : WebcamClassifier) (index : nat) :
  default None (trainClassLogitsMatrices st !! index) = None →
  deleteClassData index st = (Val (), st).
Proof.
  intros H. unfold deleteClassData. unfold_M.
  destruct (trainClassLogitsMatrices st !! index) as [[a|]|]; simpl in *;
    [discriminate|reflexivity|reflexivity].
Qed.

Lemma deleteClassData_empty_witness :
  deleteClassData 2 five_three = (Val (), five_three).
Proof. apply (deleteClassData_empty five_three 2). reflexivity. Defined.

(** Under the consistency of the object, a class whose counter is zero is
    such a class. *)
Lemma Inv_zero_count_null st index :
  Inv st → classExampleCount st !! index = Some 0 →
  default None (trainClassLogitsMatrices st !! index) = None.
Proof.
  intros HI Hc.
  destruct (trainClassLogitsMatrices st !! index) as [[a|]|] eqn:Hm;
    [|reflexivity|reflexivity].
  pose proof (Forall2_lookup_lr _ _ _ _ _ _ (inv_class st HI) Hm Hc) as [H _].
  lia.
Qed.

(** * C6: a tick with no example *)

(** C6.  A tick that would classify (no button held) while no class has an
    example raises no error and hands nothing to [setConfidences], neither
    zeros nor anything else: it only reschedules, leaving the object as it
    was. *)
Theorem animate_no_examples (topK : list R → nat → list nat)
    (st : WebcamClassifier) (frame : NDArray) :
  isDown st = false →
  getNumExamples st = 0 →
  animate topK frame st = (Val Rescheduled, st)
  ∧ ∀ confidences st',
      animate topK frame st ≠ (Val (Classified confidences), st').
Proof.
  intros Hd Hn.
  assert (H : animate topK frame st = (Val Rescheduled, st)).
  { unfold animate. now rewrite Hd, Hn. }
  split; [exact H|]. intros confidences st'. rewrite H. discriminate.
Qed.

Lemma animate_no_examples_witness :
  animate firstK frame_ones three_classes = (Val Rescheduled, three_classes)
  ∧ ∀ confidences st',
      animate firstK frame_ones three_classes
        ≠ (Val (Classified confidences), st').
Proof.
  apply (animate_no_examples firstK three_classes frame_ones); reflexivity.
Defined.

(** * C9: recording with no class selected *)

(** C9.  With no class selected ([this.current] is null),
    [saveTrainingLogits] raises a TypeError; at the throw it has dropped
    the cached training matrix and nothing else, so no example set and no
    count is touched.  The tick that would record (button flag set) raises
    the same error before calling it, with the object untouched. *)
Theorem saveTrainingLogits_no_class (topK : list R → nat → list nat)
    (st : WebcamClassifier) (frame : NDArray) :
  current st = None →
  saveTrainingLogits frame st = (Throw TypeError, set_trainLogitsMatrix None st)
  ∧ trainClassLogitsMatrices (set_trainLogitsMatrix None st)
      = trainClassLogitsMatrices st
  ∧ classExampleCount (set_trainLogitsMatrix None st) = classExampleCount st
  ∧ animate topK frame (set_isDown true st)
      = (Throw TypeError, set_isDown true st).
Proof.
  intros Hc. split; [|split; [reflexivity|split; [reflexivity|]]].
  - unfold saveTrainingLogits, currentIndex, currentEntry. unfold_M.
    destruct st as [? ? ? ? [t|] ? ? ?]; simpl in *; subst; reflexivity.
  - unfold animate, animate_record. simpl.
    apply bind_Throw, currentIndex_null. exact Hc.
Qed.

Lemma saveTrainingLogits_no_class_witness :
  saveTrainingLogits frame_ones five_three
    = (Throw TypeError, set_trainLogitsMatrix None five_three)
  ∧ trainClassLogitsMatrices (set_trainLogitsMatrix None five_three)
      = trainClassLogitsMatrices five_three
  ∧ classExampleCount (set_trainLogitsMatrix None five_three)
      = classExampleCount five_three
  ∧ animate firstK frame_ones (set_isDown true five_three)
      = (Throw TypeError, set_isDown true five_three).
Proof.
  apply (saveTrainingLogits_no_class firstK five_three frame_ones).
  vm_compute. reflexivity.
Defined.

(** * C4: clearing a class that has examples *)

(** The object after one example of A was recorded. *)
Lemma one_A_eq :
  one_A =
  {| classNames := ["A"; "B"; "C"];
     classes := <["A" := mkClassEntry 0 1]> (constructor_classes ["A"; "B"; "C"] 0 ∅);
     isDown := false;
     current := None;
     trainLogitsMatrix := None;
     measureTimingCounter := 0;
     trainClassLogitsMatrices :=
       [Some (NDArray.make [1; INPUT_SIZE; 1]
                (NDArray.values (captureFrameSqueezeNetLogits frame_ones)));
        None; None];
     classExampleCount := [1; 0; 0] |}.
Proof. reflexivity. Qed.

(** With the cached training matrix null, [deleteClassData] on a class that
    has a matrix stops at [this.trainLogitsMatrix.dispose()]: the slot has
    been nulled, the counters have not been reset. *)
Lemma deleteClassData_null_cache st index a :
  trainClassLogitsMatrices st !! index = Some (Some a) →
  trainLogitsMatrix st = None →
  deleteClassData index st
  = (Throw TypeError, set_trainClassLogitsMatrices <[index := None]> st).
Proof.
  intros Hm Ht. unfold deleteClassData. unfold_M. rewrite Hm. simpl.
  now rewrite Ht.
Qed.

(** C4, at the failing input: one example of A is recorded and A is cleared
    before any classification has rebuilt the cached training matrix.  The
    call raises a TypeError; it leaves the slot of A null and the count of
    A at 1. *)
Theorem deleteClassData_after_record :
  trainLogitsMatrix one_A = None
  ∧ classExampleCount one_A = [1; 0; 0]
  ∧ deleteClassData 0 one_A
    = (Throw TypeError, set_trainClassLogitsMatrices <[0 := None]> one_A)
  ∧ trainClassLogitsMatrices (exec (deleteClassData 0) one_A) = [None; None; None]
  ∧ classExampleCount (exec (deleteClassData 0) one_A) = [1; 0; 0].
Proof.
  assert (H : deleteClassData 0 one_A
              = (Throw TypeError, set_trainClassLogitsMatrices <[0 := None]> one_A)).
  { eapply deleteClassData_null_cache; reflexivity. }
  unfold exec. rewrite H. repeat split; reflexivity.
Qed.

(** * C10: counters and slots *)

(** C10, at the failing input of C4: counters and slots agree before the
    call, and do not after it: the count of A is 1 and its slot is null.
    The next classifying tick then finds one example to classify against,
    concatenates three null slots and fails in [math.clone]. *)
Theorem countMatrixInv_broken_by_delete :
  countMatrixInv one_A
  ∧ ¬ countMatrixInv (exec (deleteClassData 0) one_A)
  ∧ getNumExamples (exec (deleteClassData 0) one_A) = 1
  ∧ animate firstK frame_ones (exec (deleteClassData 0) one_A)
    = (Throw TypeError, exec (deleteClassData 0) one_A).
Proof.
  split; [|split; [|split]].
  - rewrite one_A_eq. intros [|[|[|i]]] count m; simpl;
      intros [= <-] [= <-]; split; (lia || congruence).
  - intros H. specialize (H 0 1 None eq_refl eq_refl).
    destruct H as [H _]. apply H; [lia|reflexivity].
  - reflexivity.
  - reflexivity.
Qed.

(** * C7: feature vectors are unit vectors *)

Section Norm.
Local Open Scope R_scope.

Lemma zip_with_Rmult_diag (v : list R) :
  zip_with Rmult v v = map (λ x, x * x) v.
Proof. induction v as [|x v IH]; simpl; [reflexivity|now rewrite IH]. Qed.

Lemma sumSquares_nonneg (v : list R) : 0 <= sumSquares v.
Proof.
  unfold sumSquares. induction v as [|x v IH]; simpl; [lra|].
  pose proof (Rle_0_sqr x) as Hx. unfold Rsqr in Hx. lra.
Qed.

Lemma sumSquares_pos (v : list R) (x : R) :
  x ∈ v → x ≠ 0 → 0 < sumSquares v.
Proof.
  intros Hin Hx. induction Hin as [x v|x y v Hin IH].
  - pose proof (sumSquares_nonneg v) as Hv.
    assert (0 < x * x) by (apply Rsqr_pos_lt in Hx; exact Hx).
    unfold sumSquares in *. simpl. lra.
  - specialize (IH Hx).
    pose proof (Rle_0_sqr y) as Hy. unfold Rsqr in Hy.
    unfold sumSquares in *. simpl. lra.
Qed.

Lemma sumSquares_scale (v : list R) (s : R) :
  s ≠ 0 → sumSquares (map (λ x, x / s) v) = sumSquares v / (s * s).
Proof.
  intros Hs. unfold sumSquares.
  induction v as [|x v IH]; simpl; [field; exact Hs|].
  rewrite IH. field. exact Hs.
Qed.

(** Dividing a vector that is not all zero by the square root of its sum of
    squares gives a vector of norm one. *)
Lemma l2norm_normalised (v : list R) (x : R) :
  x ∈ v → x ≠ 0 →
  l2norm (map (λ y, y / sqrt (sumSquares v)) v) = 1.
Proof.
  intros Hin Hx. pose proof (sumSquares_pos v x Hin Hx) as Hpos.
  unfold l2norm. rewrite sumSquares_scale.
  - rewrite sqrt_sqrt by lra.
    replace (sumSquares v / sumSquares v) with 1 by (field; lra).
    apply sqrt_1.
  - pose proof (sqrt_lt_R0 _ Hpos). lra.
Qed.

(** C7.  The vector [captureFrameSqueezeNetLogits] returns, which is the
    one stored by a recording tick and the one queried by a classifying
    tick, is the logits divided by 300 and then by the square root of the
    sum of squares of the squashed entries; when the squashed logits are
    not all zero its L2 norm is 1 (in exact arithmetic). *)
Theorem captureFrameSqueezeNetLogits_unit (logits : NDArray) (x : R) :
  let squashed := map (λ y, y / 300) (NDArray.values logits) in
  x ∈ squashed → x ≠ 0 →
  NDArray.values (captureFrameSqueezeNetLogits logits)
  = map (λ y, y / sqrt (sumSquares squashed)) squashed
  ∧ NDArray.shape (captureFrameSqueezeNetLogits logits) = NDArray.shape logits
  ∧ l2norm (NDArray.values (captureFrameSqueezeNetLogits logits)) = 1.
Proof.
  intros squashed Hin Hx.
  assert (Hv : NDArray.values (captureFrameSqueezeNetLogits logits)
               = map (λ y, y / sqrt (sumSquares squashed)) squashed).
  { unfold captureFrameSqueezeNetLogits, NDArray.divide, NDArray.multiplyStrict,
      NDArray.sum, squashLogitsDenominator. simpl.
    now rewrite zip_with_Rmult_diag. }
  split; [exact Hv|]. split; [reflexivity|].
  rewrite Hv. exact (l2norm_normalised squashed x Hin Hx).
Qed.

Lemma captureFrameSqueezeNetLogits_unit_witness :
  let squashed := map (λ y, y / 300) (NDArray.values frame_34) in
  NDArray.values (captureFrameSqueezeNetLogits frame_34)
  = map (λ y, y / sqrt (sumSquares squashed)) squashed
  ∧ NDArray.shape (captureFrameSqueezeNetLogits frame_34) = NDArray.shape frame_34
  ∧ l2norm (NDArray.values (captureFrameSqueezeNetLogits frame_34)) = 1.
Proof.
  apply (captureFrameSqueezeNetLogits_unit frame_34 (3 / 300)).
  - simpl. left.
  - lra.
Defined.

End Norm.

(** * The tensor operations on well-shaped arrays *)

Lemma reshape_same_size newShape a :
  NDArray.size a = NDArray.sizeFromShape newShape →
  NDArray.reshape newShape a = Val (NDArray.make newShape (NDArray.values a)).
Proof.
  intros H. unfold NDArray.reshape. now rewrite (proj2 (Nat.eqb_eq _ _) H).
Qed.

Lemma as3D_rows a rows :
  NDArray.shape a = [rows; INPUT_SIZE; 1] →
  NDArray.as3D rows INPUT_SIZE 1 a = Val a.
Proof.
  intros H. unfold NDArray.as3D. rewrite reshape_same_size.
  - destruct a as [sh v]. simpl in H. now subst.
  - unfold NDArray.size. now rewrite H.
Qed.

Lemma as3D_logits a :
  NDArray.size a = INPUT_SIZE →
  NDArray.as3D 1 INPUT_SIZE 1 a
  = Val (NDArray.make [1; INPUT_SIZE; 1] (NDArray.values a)).
Proof.
  intros H. unfold NDArray.as3D. apply reshape_same_size.
  rewrite H. reflexivity.
Qed.

Lemma concat3D_rows a b r1 r2 :
  NDArray.shape a = [r1; INPUT_SIZE; 1] →
  NDArray.shape b = [r2; INPUT_SIZE; 1] →
  NDArray.concat3D_axis0 a b
  = Val (NDArray.make [r1 + r2; INPUT_SIZE; 1]
           (NDArray.values a ++ NDArray.values b)).
Proof.
  intros Ha Hb. unfold NDArray.concat3D_axis0. rewrite Ha, Hb.
  now rewrite !Nat.eqb_refl.
Qed.

Lemma captureFrameSqueezeNetLogits_size frame :
  NDArray.size (captureFrameSqueezeNetLogits frame) = NDArray.size frame.
Proof. reflexivity. Qed.

(** * C3: recording an example *)

(** The state [saveTrainingLogits] ends in when it records a row [new] for
    class [idx]. *)
Lemma saveTrainingLogits_ok st frame key e :
  Inv st →
  current st = Some key → classes st !! key = Some e →
  index e < CLASS_COUNT →
  NDArray.size frame = INPUT_SIZE →
  ∃ new,
    saveTrainingLogits frame st
    = (Val (),
       set_classExampleCount (alter S (index e))
         (set_trainClassLogitsMatrices <[index e := Some new]>
            (set_trainLogitsMatrix None st)))
    ∧ NDArray.values new
      = exampleSet (default None (trainClassLogitsMatrices st !! index e))
          ++ NDArray.values (captureFrameSqueezeNetLogits frame)
    ∧ NDArray.shape new
      = [S (default 0 (classExampleCount st !! index e)); INPUT_SIZE; 1].
Proof.
  intros HI Hcur Hcls Hidx Hsize.
  pose proof (inv_class st HI) as HF. pose proof (inv_length st HI) as HL.
  destruct (lookup_lt_is_Some_2 (classExampleCount st) (index e)) as [n Hn]; [lia|].
  destruct (lookup_lt_is_Some_2 (trainClassLogitsMatrices st) (index e)) as [m Hm].
  { rewrite (Forall2_length _ _ _ HF). lia. }
  pose proof (Forall2_lookup_lr _ _ _ _ _ _ HF Hm Hn) as Hok.
  pose proof (as3D_logits (captureFrameSqueezeNetLogits frame) Hsize) as Hlog.
  clear HI.
  destruct st as [names cls down cur cache ctr mats cnts]; simpl in *. subst cur.
  unfold saveTrainingLogits, currentIndex, currentEntry. unfold_M.
  rewrite Hm, Hn. simpl.
  destruct m as [old|]; simpl in Hok.
  - destruct Hok as [Hpos Hshape].
    exists (NDArray.make [n + 1; INPUT_SIZE; 1]
              (NDArray.values old
                 ++ NDArray.values (captureFrameSqueezeNetLogits frame))).
    split; [|split; [reflexivity|simpl; do 2 f_equal; lia]].
    destruct cache; simpl; rewrite Hcls; simpl; rewrite Hm; simpl;
      rewrite Hn, (as3D_rows old n Hshape), Hlog;
      rewrite (concat3D_rows old (NDArray.make [1; INPUT_SIZE; 1] _)
                 n 1 Hshape eq_refl);
      reflexivity.
  - subst n.
    exists (NDArray.make [1; INPUT_SIZE; 1]
              (NDArray.values (captureFrameSqueezeNetLogits frame))).
    split; [|split; reflexivity].
    destruct cache; simpl; rewrite Hcls; simpl; rewrite Hm; simpl;
      rewrite Hlog; reflexivity.
Qed.

Lemma as3D_sized a n :
  NDArray.size a = n * INPUT_SIZE →
  NDArray.as3D n INPUT_SIZE 1 a
  = Val (NDArray.make [n; INPUT_SIZE; 1] (NDArray.values a)).
Proof.
  intros H. apply reshape_same_size. rewrite H.
  change (NDArray.sizeFromShape [n; INPUT_SIZE; 1])
    with (n * (INPUT_SIZE * (1 * 1))).
  now rewrite !Nat.mul_1_r.
Qed.

(** The same for an object of which only the slot of the selected class is
    known: it is null, or it holds as many numbers as the counter of the
    class asks for. *)
Lemma saveTrainingLogits_slot st frame key e m n :
  current st = Some key → classes st !! key = Some e →
  trainClassLogitsMatrices st !! index e = Some m →
  classExampleCount st !! index e = Some n →
  (∀ a, m = Some a → NDArray.size a = n * INPUT_SIZE) →
  NDArray.size frame = INPUT_SIZE →
  ∃ new,
    saveTrainingLogits frame st
    = (Val (),
       set_classExampleCount (alter S (index e))
         (set_trainClassLogitsMatrices <[index e := Some new]>
            (set_trainLogitsMatrix None st)))
    ∧ NDArray.values new
      = exampleSet m ++ NDArray.values (captureFrameSqueezeNetLogits frame).
Proof.
  intros Hcur Hcls Hm Hn Hok Hsize.
  pose proof (as3D_logits (captureFrameSqueezeNetLogits frame) Hsize) as Hlog.
  destruct st as [names cls down cur cache ctr mats cnts]; simpl in *. subst cur.
  unfold saveTrainingLogits, currentIndex, currentEntry. unfold_M.
  destruct m as [old|].
  - exists (NDArray.make [n + 1; INPUT_SIZE; 1]
              (NDArray.values old
                 ++ NDArray.values (captureFrameSqueezeNetLogits frame))).
    split; [|reflexivity].
    destruct cache; simpl; rewrite Hcls; simpl; rewrite Hm; simpl;
      rewrite Hn, (as3D_sized old n (Hok old eq_refl)), Hlog;
      rewrite (concat3D_rows (NDArray.make [n; INPUT_SIZE; 1] _)
                 (NDArray.make [1; INPUT_SIZE; 1] _) n 1 eq_refl eq_refl);
      reflexivity.
  - exists (NDArray.make [1; INPUT_SIZE; 1]
              (NDArray.values (captureFrameSqueezeNetLogits frame))).
    split; [|reflexivity].
    destruct cache; simpl; rewrite Hcls; simpl; rewrite Hm; simpl;
      rewrite Hlog; reflexivity.
Qed.

(** C3.  With one of the [CLASS_COUNT] = 3 classes that have a slot
    selected, in every state of the object with its three slots and three
    counters in which the slot of that class is null or holds as many rows
    as the counter of the class says, [saveTrainingLogits] on 1000 logits
    returns normally; in the state it leaves, the example set of that class
    is the old one followed by the feature vector of the frame, its count
    is one more, every other class has the slot and the count it had, and
    the cached training matrix is null. *)
Theorem saveTrainingLogits_appends (st : WebcamClassifier) (frame : NDArray)
    (key : string) (e : ClassEntry) :
  length (trainClassLogitsMatrices st) = CLASS_COUNT →
  length (classExampleCount st) = CLASS_COUNT →
  current st = Some key → classes st !! key = Some e →
  index e < CLASS_COUNT →
  (∀ a, trainClassLogitsMatrices st !! index e = Some (Some a) →
        NDArray.size a = (classExampleCount st !!! index e) * INPUT_SIZE) →
  NDArray.size frame = INPUT_SIZE →
  ∃ st',
    saveTrainingLogits frame st = (Val (), st')
    ∧ exampleSet (default None (trainClassLogitsMatrices st' !! index e))
      = exampleSet (default None (trainClassLogitsMatrices st !! index e))
          ++ NDArray.values (captureFrameSqueezeNetLogits frame)
    ∧ classExampleCount st' !! index e
      = S <$> classExampleCount st !! index e
    ∧ is_Some (classExampleCount st !! index e)
    ∧ (∀ j, j ≠ index e →
         trainClassLogitsMatrices st' !! j = trainClassLogitsMatrices st !! j
         ∧ classExampleCount st' !! j = classExampleCount st !! j)
    ∧ trainLogitsMatrix st' = None.
Proof.
  intros HLm HL Hcur Hcls Hidx Hok Hsize.
  destruct (lookup_lt_is_Some_2 (classExampleCount st) (index e)) as [n Hn]; [lia|].
  destruct (lookup_lt_is_Some_2 (trainClassLogitsMatrices st) (index e)) as [m Hm]; [lia|].
  rewrite (list_lookup_total_correct _ _ _ Hn) in Hok.
  destruct (saveTrainingLogits_slot st frame key e m n Hcur Hcls Hm Hn)
    as (new & Hrun & Hvals); [|exact Hsize|].
  { intros a ->. now apply Hok. }
  eexists. split; [exact Hrun|]. simpl.
  split; [|split; [|split; [|split]]].
  - rewrite list_lookup_insert_eq by lia. rewrite Hm. exact Hvals.
  - apply list_lookup_alter_eq.
  - rewrite Hn. eauto.
  - intros j Hj. split.
    + apply list_lookup_insert_ne. congruence.
    + apply list_lookup_alter_ne. congruence.
  - reflexivity.
Qed.

(** * The consistency of the object is established and kept *)

Lemma constructor_classes_names names :
  ∀ i acc pre,
    length pre = i →
    (∀ key e, acc !! key = Some e → pre !! index e = Some key) →
    ∀ key e,
      constructor_classes names i acc !! key = Some e →
      (pre ++ names) !! index e = Some key.
Proof.
  induction names as [|name rest IH]; intros i acc pre Hlen Hacc key e; simpl.
  - rewrite app_nil_r. apply Hacc.
  - intros H. rewrite cons_middle, app_assoc.
    apply (IH (S i) (<[name := mkClassEntry i 0]> acc) (pre ++ [name])); [| |exact H].
    + rewrite length_app. simpl. lia.
    + intros key' e' H'. destruct (decide (name = key')) as [->|Hne].
      * rewrite lookup_insert_eq in H'. injection H' as <-. simpl.
        rewrite <- Hlen. now rewrite list_lookup_middle.
      * rewrite lookup_insert_ne in H' by exact Hne.
        apply lookup_app_l_Some. now apply Hacc.
Qed.

Lemma constructor_Inv options : Inv (constructor options).
Proof.
  constructor; simpl.
  - reflexivity.
  - repeat constructor.
  - discriminate.
  - intros key e H.
    apply (constructor_classes_names options 0 ∅ [] eq_refl); [|exact H].
    intros key' e' H'. now rewrite lookup_empty in H'.
  - intros [|[|[|i]]] a; discriminate.
Qed.

Lemma Inv_set_isDown st b : Inv st → Inv (set_isDown b st).
Proof. intros [H1 H2 H3 H4 H5]. now constructor. Qed.

Lemma Inv_set_current st c : Inv st → Inv (set_current c st).
Proof. intros [H1 H2 H3 H4 H5]. now constructor. Qed.

Lemma Inv_set_measureTimingCounter st n :
  Inv st → Inv (set_measureTimingCounter n st).
Proof. intros [H1 H2 H3 H4 H5]. now constructor. Qed.

Lemma Inv_drop_cache st : Inv st → Inv (set_trainLogitsMatrix None st).
Proof. intros [H1 H2 H3 H4 H5]. constructor; try done. Qed.

Lemma Inv_sampleCount st key e n :
  Inv st → classes st !! key = Some e →
  Inv (set_classes <[key := mkClassEntry (index e) n]> st).
Proof.
  intros [H1 H2 H3 H4 H5] Hk. constructor; try done; simpl.
  - intros key' e' H. destruct (decide (key = key')) as [->|Hne].
    + rewrite lookup_insert_eq in H. injection H as <-. simpl. now apply H4.
    + rewrite lookup_insert_ne in H by exact Hne. now apply H4.
  - intros i a Hi. destruct (H5 i a Hi) as (key' & e' & Hk' & Hidx).
    destruct (decide (key = key')) as [->|Hne].
    + exists key', (mkClassEntry (index e) n). rewrite lookup_insert_eq.
      split; [reflexivity|]. simpl. congruence.
    + exists key', e'. now rewrite lookup_insert_ne by exact Hne.
Qed.

Lemma Inv_recorded st key e new :
  Inv st → classes st !! key = Some e →
  NDArray.shape new
  = [S (default 0 (classExampleCount st !! index e)); INPUT_SIZE; 1] →
  Inv (set_classExampleCount (alter S (index e))
         (set_trainClassLogitsMatrices <[index e := Some new]>
            (set_trainLogitsMatrix None st))).
Proof.
  intros [H1 H2 H3 H4 H5] Hk Hshape. constructor; simpl; try done.
  - now rewrite length_alter.
  - rewrite list_insert_alter. apply Forall2_alter; [exact H2|].
    intros m n _ Hn _. rewrite Hn in Hshape. simpl in *. split; [lia|done].
  - intros i a Hi. apply list_lookup_insert_Some in Hi as [(<- & _ & _)|[_ Hi]].
    + now exists key, e.
    + now apply (H5 i a).
Qed.

Lemma Inv_slot_cleared st index :
  Inv st →
  Inv (set_classExampleCount <[index := 0]>
         (set_trainLogitsMatrix None
            (set_trainClassLogitsMatrices <[index := None]> st))).
Proof.
  intros [H1 H2 H3 H4 H5]. constructor; simpl; try done.
  - now rewrite length_insert.
  - now apply Forall2_insert.
  - intros i a Hi. apply list_lookup_insert_Some in Hi as [(_ & [=] & _)|[_ Hi]].
    now apply (H5 i a).
Qed.

Lemma Inv_cached st t :
  Inv st → NDArray.size t = getNumExamples st * INPUT_SIZE →
  Inv (set_trainLogitsMatrix (Some t) st).
Proof.
  intros [H1 H2 H3 H4 H5] Ht. constructor; simpl; try done.
  intros t' [= <-]. exact Ht.
Qed.

Lemma as3D_logits_inv a b :
  NDArray.as3D 1 INPUT_SIZE 1 a = Val b → NDArray.size a = INPUT_SIZE.
Proof.
  unfold NDArray.as3D, NDArray.reshape.
  destruct (Nat.eqb_spec (NDArray.size a)
              (NDArray.sizeFromShape [1; INPUT_SIZE; 1])) as [H|H];
    [|discriminate].
  intros _. rewrite H. reflexivity.
Qed.

Lemma saveTrainingLogits_Throw_state st frame x st' :
  saveTrainingLogits frame st = (Throw x, st') →
  st' = set_trainLogitsMatrix None st.
Proof.
  unfold saveTrainingLogits, currentIndex, currentEntry. unfold_M.
  destruct st as [names cls down cur [t|] ctr mats cnts]; simpl;
    intros H; repeat (case_match; simpl in *; simplify_eq); reflexivity.
Qed.

Lemma saveTrainingLogits_Val st frame st' :
  saveTrainingLogits frame st = (Val (), st') →
  ∃ key e,
    current st = Some key ∧ classes st !! key = Some e
    ∧ is_Some (trainClassLogitsMatrices st !! index e)
    ∧ NDArray.size frame = INPUT_SIZE.
Proof.
  unfold saveTrainingLogits, currentIndex, currentEntry. unfold_M.
  destruct st as [names cls down cur [t|] ctr mats cnts]; simpl;
    intros H; repeat (case_match; simpl in *; simplify_eq);
    (eexists _, _; repeat split; [eassumption|eauto|];
     rewrite <- (captureFrameSqueezeNetLogits_size frame);
     eapply as3D_logits_inv; eassumption).
Qed.

Lemma saveTrainingLogits_Inv st frame :
  Inv st → Inv (exec (saveTrainingLogits frame) st).
Proof.
  intros HI. unfold exec.
  destruct (saveTrainingLogits frame st) as [[[]|x] st'] eqn:Hrun; simpl.
  - destruct (saveTrainingLogits_Val _ _ _ Hrun)
      as (key & e & Hcur & Hcls & Hslot & Hsize).
    apply lookup_lt_is_Some_1 in Hslot.
    rewrite (Forall2_length _ _ _ (inv_class st HI)), (inv_length st HI) in Hslot.
    destruct (saveTrainingLogits_ok st frame key e HI Hcur Hcls Hslot Hsize)
      as (new & Hrun' & _ & Hshape).
    rewrite Hrun' in Hrun. injection Hrun as <-.
    now apply (Inv_recorded st key e new).
  - rewrite (saveTrainingLogits_Throw_state _ _ _ _ Hrun).
    now apply Inv_drop_cache.
Qed.

Lemma buttonDown_Inv st id : Inv st → Inv (exec (buttonDown id) st).
Proof.
  intros HI. unfold exec, buttonDown. unfold_M. simpl.
  destruct (classes st !! id); simpl;
    now apply Inv_set_isDown, Inv_set_current.
Qed.

Lemma buttonUp_Inv st : Inv st → Inv (exec buttonUp st).
Proof.
  intros HI. unfold exec, buttonUp. unfold_M. simpl.
  now apply Inv_set_current, Inv_set_isDown.
Qed.

(** * C8: rebuilding the reference set *)

Lemma concat_ok acc m r n :
  class_ok acc r → class_ok m n →
  ∃ acc',
    concat acc m = Val acc'
    ∧ class_ok acc' (r + n)
    ∧ exampleSet acc' = exampleSet acc ++ exampleSet m.
Proof.
  destruct acc as [a1|], m as [a2|]; simpl.
  - intros [Hr H1] [Hn H2]. rewrite H1, H2. simpl.
    rewrite (as3D_rows a1 r H1), (as3D_rows a2 n H2).
    rewrite (concat3D_rows a1 a2 r n H1 H2).
    eexists. split; [reflexivity|]. simpl. repeat split. lia.
  - intros [Hr H1] ->. exists (Some a1). simpl.
    rewrite Nat.add_0_r, app_nil_r. repeat split; done.
  - intros -> [Hn H2]. exists (Some a2). repeat split; done.
  - intros -> ->. exists None. repeat split; done.
Qed.

Lemma rebuild_loop_ok mats cnts :
  Forall2 class_ok mats cnts →
  ∀ fuel index acc,
    index + fuel ≤ length mats →
    class_ok acc (classStart cnts index) →
    ∃ acc',
      rebuild_loop mats fuel index acc = Val acc'
      ∧ class_ok acc' (classStart cnts (index + fuel))
      ∧ exampleSet acc'
        = exampleSet acc ++ mjoin (exampleSet <$> take fuel (drop index mats)).
Proof.
  intros HF. induction fuel as [|fuel IH]; intros index acc Hlen Hacc.
  - exists acc. simpl. rewrite Nat.add_0_r, app_nil_r. done.
  - destruct (lookup_lt_is_Some_2 mats index ltac:(lia)) as [m Hm].
    destruct (lookup_lt_is_Some_2 cnts index) as [n Hn].
    { rewrite <- (Forall2_length _ _ _ HF). lia. }
    pose proof (Forall2_lookup_lr _ _ _ _ _ _ HF Hm Hn) as Hok.
    destruct (concat_ok acc m _ n Hacc Hok) as (acc1 & Hc & Hok1 & Hset1).
    rewrite <- (classStart_S _ _ _ Hn) in Hok1.
    destruct (IH (S index) acc1 ltac:(lia) Hok1) as (acc' & Hloop & Hok' & Hset').
    exists acc'. simpl. rewrite Hm, Hc. split; [exact Hloop|].
    replace (index + S fuel) with (S index + fuel) by lia.
    split; [exact Hok'|].
    rewrite Hset', Hset1, <- app_assoc. f_equal.
    rewrite (drop_S _ _ _ Hm). reflexivity.
Qed.

Lemma mjoin_exampleSet mats :
  mjoin (exampleSet <$> mats) = mjoin (NDArray.values <$> storedMatrices mats).
Proof.
  unfold storedMatrices.
  induction mats as [|[a|] mats IH]; [reflexivity| |exact IH].
  change (NDArray.values a ++ mjoin (exampleSet <$> mats)
          = NDArray.values a
              ++ mjoin (NDArray.values <$> omap (λ m : option NDArray, m) mats)).
  now rewrite IH.
Qed.

(** The rebuild under the consistency of the object. *)
Lemma rebuild_ok st :
  Inv st → 0 < getNumExamples st →
  ∃ t,
    rebuild st = (Val (), set_trainLogitsMatrix (Some t) st)
    ∧ NDArray.values t
      = mjoin (NDArray.values <$> storedMatrices (trainClassLogitsMatrices st))
    ∧ NDArray.shape t = [getNumExamples st; INPUT_SIZE; 1].
Proof.
  intros HI Hpos.
  pose proof (inv_class st HI) as HF. pose proof (inv_length st HI) as HL.
  pose proof (Forall2_length _ _ _ HF) as HLm.
  destruct (rebuild_loop_ok _ _ HF CLASS_COUNT 0 None) as (acc & Hloop & Hok & Hset).
  { lia. }
  { reflexivity. }
  rewrite classStart_all in Hok by (rewrite HL; apply Nat.le_refl).
  rewrite <- getNumExamples_sum in Hok.
  simpl in Hset.
  rewrite drop_0, <- HL, <- HLm, firstn_all, mjoin_exampleSet in Hset.
  destruct acc as [t|]; simpl in Hok; [|lia].
  exists t. unfold rebuild. unfold_M. rewrite Hloop. simpl.
  destruct Hok as [_ Hshape]. done.
Qed.

(** C8, at a failing input: an example of A and an example of B are
    recorded and A is cleared before any classification; the call raises
    the TypeError of C4 and leaves the count of A at 1 with its slot null.
    The rebuild of the next classifying tick then succeeds with the one row
    of B, while the total example count is 2; the tick fails afterwards, at
    [as2D(numExamples, 1000)]. *)
Theorem rebuild_after_failed_clear :
  deleteClassData 0 (hold "B" 1 (hold "A" 1 three_classes))
  = (Throw TypeError, A_B_cleared)
  ∧ classExampleCount A_B_cleared = [1; 1; 0]
  ∧ getNumExamples A_B_cleared = 2
  ∧ (∃ b,
       trainClassLogitsMatrices A_B_cleared = [None; Some b; None]
       ∧ rebuild A_B_cleared
         = (Val (), set_trainLogitsMatrix (Some b) A_B_cleared)
       ∧ NDArray.shape b = [1; INPUT_SIZE; 1])
  ∧ ∃ st', animate firstK frame_ones A_B_cleared = (Throw AssertionError, st').
Proof.
  split; [|split; [reflexivity|split; [reflexivity|split]]].
  - unfold A_B_cleared, exec.
    rewrite (deleteClassData_null_cache
               (hold "B" 1 (hold "A" 1 three_classes)) 0
               (slotMatrix (hold "B" 1 (hold "A" 1 three_classes)) 0));
      reflexivity.
  - exists (slotMatrix A_B_cleared 1). split; [reflexivity|].
    split; reflexivity.
  - eexists. reflexivity.
Qed.

(** * C2: the confidences of a classifying tick *)

Lemma getClassFromIndex_loop_lt counts i fuel :
  ∀ ind p c,
    getClassFromIndex_loop counts i fuel ind p = Some c → c < ind + fuel.
Proof.
  induction fuel as [|fuel IH]; intros ind p c; simpl; [discriminate|].
  destruct p as [p|], (counts !! ind) as [x|];
    try (intros H; apply IH in H; lia).
  destruct (i <? x + p); [intros [= <-]; lia|].
  intros H; apply IH in H; lia.
Qed.

Lemma getClassFromIndex_lt st i : getClassFromIndex st i < CLASS_COUNT.
Proof.
  unfold getClassFromIndex.
  destruct (getClassFromIndex_loop _ _ _ _ _) as [c|] eqn:H; simpl.
  - apply getClassFromIndex_loop_lt in H. lia.
  - unfold CLASS_COUNT. lia.
Qed.

(** Below the total example count, [getClassFromIndex] decides [owns]. *)
Lemma getClassFromIndex_owns st i c :
  length (classExampleCount st) = CLASS_COUNT →
  i < getNumExamples st →
  getClassFromIndex st i = c ↔ owns (classExampleCount st) c i.
Proof.
  intros Hlen Hi. rewrite getNumExamples_sum in Hi.
  destruct (getClassFromIndex_loop_owner (classExampleCount st) i CLASS_COUNT 0)
    as (c0 & Hloop & Hown).
  - unfold classStart. simpl. lia.
  - lia.
  - rewrite classStart_all; [done | simpl; lia].
  - change (classStart (classExampleCount st) 0) with 0 in Hloop.
    unfold getClassFromIndex. rewrite Hloop. simpl. split.
    + now intros <-.
    + intros Hc. eapply owns_unique; eassumption.
Qed.

Lemma sum_list_alter_S (l : list nat) (c : nat) :
  c < length l → sum_list (alter S c l) = S (sum_list l).
Proof.
  revert c. induction l as [|x l IH]; intros [|c] Hc; simpl in *; try lia.
  change (x + sum_list (alter S c l) = S (x + sum_list l)).
  rewrite IH by lia. lia.
Qed.

Section Tally.
Variable g : nat → nat.
Hypothesis g_lt : ∀ i, g i < CLASS_COUNT.

Lemma tally_length indices :
  ∀ acc, length (foldl (λ acc i, alter S (g i) acc) acc indices) = length acc.
Proof.
  induction indices as [|i indices IH]; intros acc; simpl; [reflexivity|].
  now rewrite IH, length_alter.
Qed.

Lemma tally_sum indices :
  ∀ acc, length acc = CLASS_COUNT →
         sum_list (foldl (λ acc i, alter S (g i) acc) acc indices)
         = sum_list acc + length indices.
Proof.
  induction indices as [|i indices IH]; intros acc Hacc; simpl; [lia|].
  rewrite IH by now rewrite length_alter.
  rewrite sum_list_alter_S by (rewrite Hacc; apply g_lt). lia.
Qed.

Lemma tally_lookup indices c :
  ∀ acc, c < length acc →
         foldl (λ acc i, alter S (g i) acc) acc indices !!! c
         = acc !!! c + length (filter (λ i, g i = c) indices).
Proof.
  induction indices as [|i indices IH]; intros acc Hc; simpl; [lia|].
  rewrite IH by now rewrite length_alter.
  rewrite filter_cons. destruct (decide (g i = c)) as [->|Hne].
  - rewrite list_lookup_total_alter. case_decide; cbn [length]; lia.
  - rewrite list_lookup_total_alter_ne by exact Hne. lia.
Qed.

End Tally.

Lemma filter_iff_in {A} (P Q : A → Prop) `{∀ x, Decision (P x)}
    `{∀ x, Decision (Q x)} (l : list A) :
  (∀ x, x ∈ l → P x ↔ Q x) → filter P l = filter Q l.
Proof.
  induction l as [|x l IH]; intros HPQ; [reflexivity|].
  rewrite !filter_cons.
  rewrite IH by (intros y Hy; apply HPQ; now right).
  pose proof (HPQ x (list_elem_of_here x l)) as Hx.
  destruct (decide (P x)) as [HP|HP], (decide (Q x)) as [HQ|HQ];
    (reflexivity || tauto).
Qed.

Lemma classTopKMap_length st selected : length (classTopKMap st selected) = 3.
Proof. unfold classTopKMap. now rewrite tally_length. Qed.

Lemma classTopKMap_sum st selected :
  sum_list (classTopKMap st selected) = length selected.
Proof.
  unfold classTopKMap.
  rewrite tally_sum; [reflexivity| apply getClassFromIndex_lt |reflexivity].
Qed.

Lemma classTopKMap_votes st selected c :
  length (classExampleCount st) = CLASS_COUNT →
  (∀ i, i ∈ selected → i < getNumExamples st) →
  c < CLASS_COUNT →
  classTopKMap st selected !!! c = votes (classExampleCount st) selected c.
Proof.
  intros Hlen Hsel Hc. unfold classTopKMap, votes.
  rewrite tally_lookup by exact Hc.
  rewrite (filter_iff_in (λ i, getClassFromIndex st i = c)
             (λ i, owns (classExampleCount st) c i)).
  - destruct c as [|[|[|c]]]; [reflexivity..|unfold CLASS_COUNT in Hc; lia].
  - intros i Hi. apply getClassFromIndex_owns; [exact Hlen|now apply Hsel].
Qed.

Section SumOfConfidences.
Local Open Scope R_scope.

Lemma sumR_confidences (m : list nat) (K : nat) :
  length m = 3%nat → sum_list m = K → (0 < K)%nat →
  sumR (map (λ index, INR (m !!! index) / INR K) (seq 0 CLASS_COUNT)) = 1.
Proof.
  intros Hm Hsum HK.
  destruct m as [|a [|b [|c [|d m]]]]; try discriminate.
  simpl in Hsum. unfold sumR. simpl.
  assert (HK' : INR K ≠ 0) by (apply not_0_INR; lia).
  rewrite <- Hsum, !plus_INR in *. simpl INR in *. field. lra.
Qed.

End SumOfConfidences.

Lemma as2D_train t n :
  NDArray.size t = n * INPUT_SIZE →
  NDArray.as2D n 1000 t = Val (NDArray.make [n; 1000] (NDArray.values t)).
Proof.
  intros H. apply reshape_same_size. rewrite H.
  change (NDArray.sizeFromShape [n; 1000]) with (n * (INPUT_SIZE * 1)).
  now rewrite Nat.mul_1_r.
Qed.

Lemma as2D_frame a :
  NDArray.size a = INPUT_SIZE →
  NDArray.as2D 1000 1 a = Val (NDArray.make [1000; 1] (NDArray.values a)).
Proof. intros H. apply reshape_same_size. rewrite H. reflexivity. Qed.

Lemma matMul_column n v w :
  NDArray.matMul (NDArray.make [n; 1000] v) (NDArray.make [1000; 1] w)
  = Val (NDArray.make [n; 1]
           (map (λ i, NDArray.dot (NDArray.row 1000 v i) w) (seq 0 n))).
Proof. reflexivity. Qed.

Lemma as1D_column n v :
  NDArray.as1D (NDArray.make [n; 1] v)
  = Val (NDArray.make [NDArray.size (NDArray.make [n; 1] v)] v).
Proof.
  apply reshape_same_size.
  change (NDArray.sizeFromShape [NDArray.size (NDArray.make [n; 1] v)])
    with (NDArray.size (NDArray.make [n; 1] v) * 1).
  now rewrite Nat.mul_1_r.
Qed.

Lemma size_rows t n :
  NDArray.shape t = [n; INPUT_SIZE; 1] → NDArray.size t = n * INPUT_SIZE.
Proof.
  intros H. unfold NDArray.size. rewrite H.
  change (NDArray.sizeFromShape [n; INPUT_SIZE; 1])
    with (n * (INPUT_SIZE * (1 * 1))).
  now rewrite !Nat.mul_1_r.
Qed.

(** The similarities of a classifying tick: one dot product per row of the
    training matrix [t] the tick classifies against. *)
Lemma animate_classify_ok topK st frame :
  Inv st → 0 < getNumExamples st → NDArray.size frame = INPUT_SIZE →
  ∃ t knn,
    animate_classify topK frame (getNumExamples st) st
    = computeConfidences topK knn (getNumExamples st)
        (set_trainLogitsMatrix (Some t) st)
    ∧ NDArray.size t = getNumExamples st * INPUT_SIZE
    ∧ NDArray.values knn
      = map (λ i, NDArray.dot (NDArray.row 1000 (NDArray.values t) i)
                    (NDArray.values (captureFrameSqueezeNetLogits frame)))
          (seq 0 (getNumExamples st)).
Proof.
  intros HI Hpos Hsize.
  pose proof (as2D_frame (captureFrameSqueezeNetLogits frame) Hsize) as Hframe.
  destruct (trainLogitsMatrix st) as [t|] eqn:Hc.
  - pose proof (inv_cache st HI t Hc) as Ht.
    exists t. eexists (NDArray.make _ _). split; [|split; [exact Ht|reflexivity]].
    unfold animate_classify. unfold_M. rewrite Hc. cbn beta iota. rewrite Hc.
    rewrite (as2D_train t _ Ht), Hframe, matMul_column, as1D_column.
    destruct st; simpl in *; now subst.
  - destruct (rebuild_ok st HI Hpos) as (t & Hrun & _ & Hshape).
    pose proof (size_rows t _ Hshape) as Ht.
    exists t. eexists (NDArray.make _ _). split; [|split; [exact Ht|reflexivity]].
    unfold animate_classify. unfold_M. rewrite Hc, Hrun. cbn beta iota.
    change (trainLogitsMatrix (set_trainLogitsMatrix (Some t) st)) with (Some t).
    cbn beta iota.
    rewrite (as2D_train t _ Ht), Hframe, matMul_column, as1D_column.
    reflexivity.
Qed.

Lemma currentEntry_state st o st' : currentEntry st = (o, st') → st' = st.
Proof.
  unfold currentEntry.
  destruct (current st) as [key|]; [destruct (classes st !! key)|];
    now intros [= _ <-].
Qed.

Lemma currentEntry_Val st key e st' :
  currentEntry st = (Val (key, e), st') → classes st !! key = Some e.
Proof.
  unfold currentEntry.
  destruct (current st) as [k|]; [|discriminate].
  destruct (classes st !! k) as [e'|] eqn:H; [|discriminate].
  now intros [= <- <- _].
Qed.

Lemma animate_record_Inv st frame :
  Inv st → Inv (exec (animate_record frame) st).
Proof.
  intros HI. unfold exec, animate_record, currentIndex. unfold_M.
  destruct (currentEntry st) as [[ke|x] s0] eqn:H0;
    pose proof (currentEntry_state _ _ _ H0) as ->; simpl; [|exact HI].
  pose proof (saveTrainingLogits_Inv st frame HI) as HI1. unfold exec in HI1.
  destruct (saveTrainingLogits frame st) as [[[]|x] s1]; simpl in *; [|exact HI1].
  destruct (currentEntry s1) as [[[key e]|x] s2] eqn:H2;
    pose proof (currentEntry_state _ _ _ H2) as ->; simpl; [|exact HI1].
  apply Inv_sampleCount; [exact HI1|]. now apply currentEntry_Val in H2.
Qed.

Lemma animate_Inv topK st frame :
  Inv st → NDArray.size frame = INPUT_SIZE →
  Inv (exec (animate topK frame) st).
Proof.
  intros HI Hsize. unfold exec, animate.
  destruct (isDown st); [now apply animate_record_Inv|].
  destruct (Nat.ltb_spec 0 (getNumExamples st)) as [Hpos|_]; [|exact HI].
  destruct (animate_classify_ok topK st frame HI Hpos Hsize)
    as (t & knn & Hrun & Ht & _).
  rewrite Hrun. unfold computeConfidences. unfold_M. simpl.
  apply (Inv_set_measureTimingCounter (set_trainLogitsMatrix (Some t) st)).
  now apply Inv_cached.
Qed.

Lemma hold_Inv id n st : Inv st → Inv (hold id n st).
Proof.
  intros HI. unfold hold. apply buttonUp_Inv.
  induction n as [|n IH]; simpl.
  - now apply buttonDown_Inv.
  - now apply animate_Inv.
Qed.

Lemma five_three_Inv : Inv five_three.
Proof. apply hold_Inv, hold_Inv, constructor_Inv. Qed.

Lemma one_A_Inv : Inv one_A.
Proof. apply hold_Inv, constructor_Inv. Qed.


Lemma firstK_length (v : list R) (k : nat) :
  k ≤ length v → length (firstK v k) = k.
Proof. intros _. apply length_seq. Qed.

Lemma firstK_range (v : list R) (k i : nat) :
  k ≤ length v → i ∈ firstK v k → i < length v.
Proof. intros Hk Hi. apply elem_of_seq in Hi. lia. Qed.

Lemma getClassFromIndex_owner_witness :
  ∃ c,
    getClassFromIndex_loop (classExampleCount five_three) 6 CLASS_COUNT 0 (Some 0)
      = Some c
    ∧ getClassFromIndex five_three 6 = c
    ∧ owns (classExampleCount five_three) c 6
    ∧ ∀ c', owns (classExampleCount five_three) c' 6 → c' = c.
Proof.
  apply (getClassFromIndex_owner five_three 6).
  - reflexivity.
  - vm_compute. lia.
Defined.

(** A class slot of a consistent object holds as many numbers as its
    counter asks for. *)
Lemma Inv_slot_size st i a :
  Inv st → trainClassLogitsMatrices st !! i = Some (Some a) →
  NDArray.size a = (classExampleCount st !!! i) * INPUT_SIZE.
Proof.
  intros HI Hm.
  pose proof (inv_class st HI) as HF.
  destruct (lookup_lt_is_Some_2 (classExampleCount st) i) as [n Hn].
  { rewrite <- (Forall2_length _ _ _ HF). eapply lookup_lt_Some, Hm. }
  pose proof (Forall2_lookup_lr _ _ _ _ _ _ HF Hm Hn) as [_ Hshape].
  rewrite (list_lookup_total_correct _ _ _ Hn). now apply size_rows.
Qed.

Lemma saveTrainingLogits_appends_witness :
  ∃ st',
    saveTrainingLogits frame_ones (exec (buttonDown "B") five_three) = (Val (), st')
    ∧ exampleSet (default None (trainClassLogitsMatrices st' !! 1))
      = exampleSet (default None
                      (trainClassLogitsMatrices (exec (buttonDown "B") five_three) !! 1))
          ++ NDArray.values (captureFrameSqueezeNetLogits frame_ones)
    ∧ classExampleCount st' !! 1
      = S <$> classExampleCount (exec (buttonDown "B") five_three) !! 1
    ∧ is_Some (classExampleCount (exec (buttonDown "B") five_three) !! 1)
    ∧ (∀ j, j ≠ 1 →
         trainClassLogitsMatrices st' !! j
         = trainClassLogitsMatrices (exec (buttonDown "B") five_three) !! j
         ∧ classExampleCount st' !! j
           = classExampleCount (exec (buttonDown "B") five_three) !! j)
    ∧ trainLogitsMatrix st' = None.
Proof.
  apply (saveTrainingLogits_appends (exec (buttonDown "B") five_three)
           frame_ones "B" (mkClassEntry 1 3)).
  - reflexivity.
  - reflexivity.
  - reflexivity.
  - reflexivity.
  - simpl. unfold CLASS_COUNT. lia.
  - intros a Hm. apply Inv_slot_size; [|exact Hm].
    apply buttonDown_Inv, five_three_Inv.
  - reflexivity.
Defined.


(** * Clearing a class while the training matrix is cached *)

Lemma Inv_countMatrixInv st : Inv st → countMatrixInv st.
Proof.
  intros HI i count m Hc Hm.
  pose proof (Forall2_lookup_lr _ _ _ _ _ _ (inv_class st HI) Hm Hc) as Hok.
  destruct m as [a|]; simpl in Hok.
  - split; [discriminate|]. tauto.
  - subst count. split; [lia|congruence].
Qed.

(** With the training matrix cached, [deleteClassData] on a class that has
    a matrix returns normally: slot nulled, cache dropped, both counters of
    the class reset. *)
Lemma deleteClassData_cached st index a t :
  Inv st →
  trainClassLogitsMatrices st !! index = Some (Some a) →
  trainLogitsMatrix st = Some t →
  ∃ name i s,
    classNames st !! index = Some name
    ∧ classes st !! name = Some (mkClassEntry i s)
    ∧ deleteClassData index st
      = (Val (),
         set_classes <[name := mkClassEntry i 0]>
           (set_classExampleCount <[index := 0]>
              (set_trainLogitsMatrix None
                 (set_trainClassLogitsMatrices <[index := None]> st)))).
Proof.
  intros HI Hm Ht.
  destruct (inv_owner st HI index a Hm) as (name & [i s] & Hcls & Hidx).
  pose proof (inv_names st HI name _ Hcls) as Hname. simpl in Hidx, Hname.
  subst i. exists name, index, s. split; [exact Hname|]. split; [exact Hcls|].
  unfold deleteClassData. unfold_M. rewrite Hm. simpl.
  rewrite Ht. simpl. rewrite Hname. simpl. now rewrite Hcls.
Qed.

Lemma deleteClassData_cached_Inv st index t :
  Inv st → trainLogitsMatrix st = Some t →
  Inv (exec (deleteClassData index) st).
Proof.
  intros HI Ht. unfold exec.
  destruct (trainClassLogitsMatrices st !! index) as [[a|]|] eqn:Hm.
  - destruct (deleteClassData_cached st index a t HI Hm Ht)
      as (name & i & s & _ & Hcls & ->). simpl.
    apply (Inv_sampleCount _ name (mkClassEntry i s) 0);
      [now apply Inv_slot_cleared|exact Hcls].
  - unfold deleteClassData. unfold_M. now rewrite Hm.
  - unfold deleteClassData. unfold_M. now rewrite Hm.
Qed.

(** * getClassFromIndex beyond the claims *)

Lemma getClassFromIndex_loop_beyond counts i fuel :
  ∀ ind,
    ind + fuel ≤ length counts →
    classStart counts (ind + fuel) ≤ i →
    getClassFromIndex_loop counts i fuel ind (Some (classStart counts ind))
    = None.
Proof.
  induction fuel as [|fuel IH]; intros ind Hlen Hi; [reflexivity|].
  destruct (lookup_lt_is_Some_2 counts ind ltac:(lia)) as [x Hx].
  pose proof (classStart_S _ _ _ Hx) as HS.
  pose proof (classStart_mono counts (S ind) (ind + S fuel) ltac:(lia)) as Hm.
  simpl. rewrite Hx.
  destruct (Nat.ltb_spec i (x + classStart counts ind)) as [Hin|Hout]; [lia|].
  rewrite <- HS. apply IH; [lia|].
  now replace (S ind + fuel) with (ind + S fuel) by lia.
Qed.

Lemma getClassFromIndex_beyond st i :
  length (classExampleCount st) = CLASS_COUNT →
  getNumExamples st ≤ i →
  getClassFromIndex_loop (classExampleCount st) i CLASS_COUNT 0 (Some 0) = None.
Proof.
  intros Hlen Hi. rewrite getNumExamples_sum in Hi.
  apply (getClassFromIndex_loop_beyond (classExampleCount st) i CLASS_COUNT 0).
  - lia.
  - rewrite (classStart_all (classExampleCount st) (0 + CLASS_COUNT));
      [exact Hi|simpl; lia].
Qed.

(** X1.  For a row index at or beyond the total example count (in
    particular for every index while no class has an example), the loop of
    [getClassFromIndex] runs out and the method answers its fallback, the
    last class, 2. *)
Theorem getClassFromIndex_fallback (st : WebcamClassifier) (i : nat) :
  length (classExampleCount st) = CLASS_COUNT →
  getNumExamples st ≤ i →
  getClassFromIndex_loop (classExampleCount st) i CLASS_COUNT 0 (Some 0) = None
  ∧ getClassFromIndex st i = 2.
Proof.
  intros Hlen Hi.
  pose proof (getClassFromIndex_beyond st i Hlen Hi) as H.
  split; [exact H|]. unfold getClassFromIndex. now rewrite H.
Qed.

Lemma getClassFromIndex_fallback_witness :
  getClassFromIndex_loop (classExampleCount five_three) 8 CLASS_COUNT 0 (Some 0)
  = None
  ∧ getClassFromIndex five_three 8 = 2.
Proof.
  apply (getClassFromIndex_fallback five_three 8).
  - reflexivity.
  - vm_compute. lia.
Defined.

(** Below the total, what [getClassFromIndex] answers owns the row. *)
Lemma getClassFromIndex_owns_self st i :
  length (classExampleCount st) = CLASS_COUNT →
  i < getNumExamples st →
  owns (classExampleCount st) (getClassFromIndex st i) i.
Proof. intros Hlen Hi. now apply (getClassFromIndex_owns st i). Qed.

(** X2.  [getClassFromIndex] is monotone: a later row never maps to an
    earlier class, whether the rows are in range or not. *)
Theorem getClassFromIndex_mono (st : WebcamClassifier) (i j : nat) :
  length (classExampleCount st) = CLASS_COUNT →
  i ≤ j →
  getClassFromIndex st i ≤ getClassFromIndex st j.
Proof.
  intros Hlen Hij.
  destruct (Nat.lt_ge_cases j (getNumExamples st)) as [Hj|Hj].
  - pose proof (getClassFromIndex_owns_self st i Hlen ltac:(lia)) as [Hci [Hi1 Hi2]].
    pose proof (getClassFromIndex_owns_self st j Hlen Hj) as [Hcj [Hj1 Hj2]].
    destruct (Nat.le_gt_cases (getClassFromIndex st i) (getClassFromIndex st j))
      as [Hle|Hgt]; [exact Hle|exfalso].
    destruct (lookup_lt_is_Some_2 _ _ Hcj) as [x Hx].
    rewrite (list_lookup_total_correct _ _ _ Hx) in Hj2.
    pose proof (classStart_S _ _ _ Hx) as HS.
    pose proof (classStart_mono (classExampleCount st)
                  (S (getClassFromIndex st j)) (getClassFromIndex st i)
                  ltac:(lia)).
    lia.
  - unfold getClassFromIndex at 2.
    rewrite (getClassFromIndex_beyond st j Hlen Hj). simpl.
    pose proof (getClassFromIndex_lt st i). unfold CLASS_COUNT in *. lia.
Qed.

Lemma getClassFromIndex_mono_witness :
  getClassFromIndex five_three 4 ≤ getClassFromIndex five_three 5.
Proof.
  apply (getClassFromIndex_mono five_three 4 5).
  - reflexivity.
  - lia.
Defined.

(** X3.  A row below the total example count never maps to a class that
    has no example: the counter of the class [getClassFromIndex] answers is
    positive. *)
Theorem getClassFromIndex_nonempty (st : WebcamClassifier) (i : nat) :
  length (classExampleCount st) = CLASS_COUNT →
  i < getNumExamples st →
  0 < classExampleCount st !!! getClassFromIndex st i.
Proof.
  intros Hlen Hi.
  destruct (getClassFromIndex_owns_self st i Hlen Hi) as [_ H]. lia.
Qed.

Lemma getClassFromIndex_nonempty_witness :
  0 < classExampleCount five_three !!! getClassFromIndex five_three 7.
Proof.
  apply (getClassFromIndex_nonempty five_three 7).
  - reflexivity.
  - vm_compute. lia.
Defined.

(** * The classifying tick beyond the claims *)



Lemma similarities_length t frame n : length (similarities t frame n) = n.
Proof. unfold similarities. now rewrite length_map, length_seq. Qed.

(** Counting the rows of a range. *)
Lemma filter_range_seq (a b n : nat) :
  length (filter (λ i, a ≤ i < b) (seq 0 n)) = Nat.min b n - Nat.min a n.
Proof.
  induction n as [|n IH]; [simpl; lia|].
  rewrite seq_S, filter_app, length_app, IH. simpl.
  rewrite filter_cons, filter_nil.
  destruct (decide (a ≤ n < b)); simpl; lia.
Qed.

Lemma votes_seq counts c :
  c < length counts →
  votes counts (seq 0 (sum_list counts)) c = counts !!! c.
Proof.
  intros Hc. unfold votes.
  destruct (lookup_lt_is_Some_2 counts c Hc) as [x Hx].
  rewrite (list_lookup_total_correct _ _ _ Hx).
  pose proof (classStart_S _ _ _ Hx) as HS.
  pose proof (classStart_mono counts (S c) (length counts) ltac:(lia)) as Hm.
  rewrite (classStart_all counts (length counts)) in Hm by lia.
  rewrite (list_filter_iff _ (λ i, classStart counts c ≤ i < classStart counts c + x)).
  - rewrite filter_range_seq. lia.
  - intros i. unfold owns. rewrite (list_lookup_total_correct _ _ _ Hx). tauto.
Qed.

Lemma votes_Permutation counts l l' c :
  l ≡ₚ l' → votes counts l c = votes counts l' c.
Proof. intros H. unfold votes. now rewrite H. Qed.


Lemma votes_empty_class counts l c :
  counts !! c = Some 0 → votes counts l c = 0.
Proof.
  intros Hc. unfold votes.
  rewrite (list_filter_iff _ (λ _, False)).
  - induction l as [|x l IH]; [reflexivity|].
    rewrite filter_cons. now destruct (decide False).
  - intros i. unfold owns. rewrite (list_lookup_total_correct _ _ _ Hc).
    split; [lia|tauto].
Qed.

Section Ticks.

Variable topK : list R → nat → list nat.
Hypothesis topK_length : ∀ v k, k ≤ length v → length (topK v k) = k.
Hypothesis topK_range : ∀ v k i, k ≤ length v → i ∈ topK v k → i < length v.
Hypothesis topK_NoDup : ∀ v k, k ≤ length v → NoDup (topK v k).








End Ticks.

Lemma firstK_NoDup (v : list R) (k : nat) : k ≤ length v → NoDup (firstK v k).
Proof. intros _. apply NoDup_seq. Qed.



(** * Recording beyond the claims *)

Lemma animate_record_ok st frame key e :
  Inv st →
  current st = Some key → classes st !! key = Some e →
  index e < CLASS_COUNT →
  NDArray.size frame = INPUT_SIZE →
  ∃ new,
    animate_record frame st
    = (Val (Recorded (sampleCount e + 1)),
       set_classes <[key := mkClassEntry (index e) (sampleCount e + 1)]>
         (set_classExampleCount (alter S (index e))
            (set_trainClassLogitsMatrices <[index e := Some new]>
               (set_trainLogitsMatrix None st))))
    ∧ NDArray.shape new
      = [S (default 0 (classExampleCount st !! index e)); INPUT_SIZE; 1].
Proof.
  intros HI Hcur Hcls Hidx Hsize.
  destruct (saveTrainingLogits_ok st frame key e HI Hcur Hcls Hidx Hsize)
    as (new & Hrun & _ & Hshape).
  exists new. split; [|exact Hshape].
  unfold animate_record.
  rewrite (bind_Val _ _ _ _ _ (currentIndex_selected st key e Hcur Hcls)).
  rewrite (bind_Val _ _ _ _ _ Hrun).
  erewrite bind_Val; [|apply (currentEntry_selected _ key e); [exact Hcur|exact Hcls]].
  reflexivity.
Qed.

Lemma countsAgree_recorded st key e new :
  Inv st → countsAgree st → classes st !! key = Some e →
  index e < CLASS_COUNT →
  countsAgree
    (set_classes <[key := mkClassEntry (index e) (sampleCount e + 1)]>
       (set_classExampleCount (alter S (index e))
          (set_trainClassLogitsMatrices <[index e := Some new]>
             (set_trainLogitsMatrix None st)))).
Proof.
  intros HI HA Hcls Hidx key' e' H' Hidx'. simpl in *.
  destruct (decide (key = key')) as [<-|Hne].
  - rewrite lookup_insert_eq in H'. injection H' as <-. simpl.
    rewrite list_lookup_alter_eq, (HA key e Hcls Hidx). simpl.
    f_equal. lia.
  - rewrite lookup_insert_ne in H' by exact Hne.
    rewrite list_lookup_alter_ne; [exact (HA key' e' H' Hidx')|].
    intros Heq. apply Hne.
    pose proof (inv_names st HI key e Hcls) as H1.
    pose proof (inv_names st HI key' e' H') as H2.
    rewrite Heq in H1. congruence.
Qed.

(** X8.  On a consistent object (three counters; every class slot null
    with counter 0 or a matrix of as many rows of 1000 numbers as its
    counter says; class entries that name their index) whose sample counts
    agree with the example counters, a recording tick on a selected class
    that has a slot (index below [CLASS_COUNT] = 3), with 1000 logits,
    hands to [sampleCallback] the sample count of that class plus one.  It
    leaves in the slot of the class a matrix of that many rows, the old
    rows followed by the feature vector of the frame, and the sample counts
    agree with the example counters after it as before, so the number
    handed over is the number of examples stored for the class. *)
Theorem animate_record_reports (topK : list R → nat → list nat)
    (st : WebcamClassifier) (frame : NDArray) (key : string) (e : ClassEntry) :
  Inv st → countsAgree st →
  isDown st = true → current st = Some key → classes st !! key = Some e →
  index e < CLASS_COUNT →
  NDArray.size frame = INPUT_SIZE →
  ∃ st' new,
    animate topK frame st = (Val (Recorded (sampleCount e + 1)), st')
    ∧ trainClassLogitsMatrices st' !! index e = Some (Some new)
    ∧ NDArray.shape new = [sampleCount e + 1; INPUT_SIZE; 1]
    ∧ NDArray.values new
      = exampleSet (default None (trainClassLogitsMatrices st !! index e))
          ++ NDArray.values (captureFrameSqueezeNetLogits frame)
    ∧ classExampleCount st' !! index e = Some (sampleCount e + 1)
    ∧ classes st' !! key = Some (mkClassEntry (index e) (sampleCount e + 1))
    ∧ countsAgree st'
    ∧ isDown st' = true ∧ current st' = Some key.
Proof.
  intros HI HA Hd Hcur Hcls Hidx Hsize.
  destruct (saveTrainingLogits_ok st frame key e HI Hcur Hcls Hidx Hsize)
    as (new & Hsave & Hvals & Hshape).
  assert (Hrun : animate_record frame st
                 = (Val (Recorded (sampleCount e + 1)),
                    set_classes <[key := mkClassEntry (index e) (sampleCount e + 1)]>
                      (set_classExampleCount (alter S (index e))
                         (set_trainClassLogitsMatrices <[index e := Some new]>
                            (set_trainLogitsMatrix None st))))).
  { unfold animate_record.
    rewrite (bind_Val _ _ _ _ _ (currentIndex_selected st key e Hcur Hcls)).
    rewrite (bind_Val _ _ _ _ _ Hsave).
    erewrite bind_Val;
      [|apply (currentEntry_selected _ key e); [exact Hcur|exact Hcls]].
    reflexivity. }
  assert (Hlt : index e < length (trainClassLogitsMatrices st)).
  { rewrite (Forall2_length _ _ _ (inv_class st HI)), (inv_length st HI).
    exact Hidx. }
  eexists _, new. unfold animate. rewrite Hd. split; [exact Hrun|]. simpl.
  split; [|split; [|split; [|split; [|split; [|split; [|split]]]]]].
  - apply list_lookup_insert_eq. exact Hlt.
  - rewrite Hshape, (HA key e Hcls Hidx). simpl. do 2 f_equal. lia.
  - exact Hvals.
  - rewrite list_lookup_alter_eq, (HA key e Hcls Hidx). simpl. f_equal. lia.
  - apply lookup_insert_eq.
  - now apply countsAgree_recorded.
  - exact Hd.
  - exact Hcur.
Qed.

(** The entries the constructor makes show no sample. *)
Lemma constructor_classes_fresh names :
  ∀ i acc,
    (∀ key e, acc !! key = Some e → sampleCount e = 0) →
    ∀ key e, constructor_classes names i acc !! key = Some e →
             sampleCount e = 0.
Proof.
  induction names as [|name rest IH]; intros i acc Hacc key e; simpl.
  - apply Hacc.
  - apply IH. intros key' e' H'.
    destruct (decide (name = key')) as [->|Hne].
    + rewrite lookup_insert_eq in H'. now injection H' as <-.
    + rewrite lookup_insert_ne in H' by exact Hne. now apply (Hacc key').
Qed.

Lemma constructor_countsAgree options : countsAgree (constructor options).
Proof.
  intros key e H Hidx.
  assert (Hs : sampleCount e = 0).
  { apply (constructor_classes_fresh options 0 ∅) with (key := key);
      [|exact H]. intros k x Hk. now rewrite lookup_empty in Hk. }
  rewrite Hs. apply lookup_replicate_2. exact Hidx.
Qed.

Lemma animate_record_reports_witness :
  ∃ st' new,
    animate firstK frame_ones (exec (buttonDown "B") three_classes)
    = (Val (Recorded (sampleCount (mkClassEntry 1 0) + 1)), st')
    ∧ trainClassLogitsMatrices st' !! index (mkClassEntry 1 0) = Some (Some new)
    ∧ NDArray.shape new = [sampleCount (mkClassEntry 1 0) + 1; INPUT_SIZE; 1]
    ∧ NDArray.values new
      = exampleSet (default None
                      (trainClassLogitsMatrices
                         (exec (buttonDown "B") three_classes)
                         !! index (mkClassEntry 1 0)))
          ++ NDArray.values (captureFrameSqueezeNetLogits frame_ones)
    ∧ classExampleCount st' !! index (mkClassEntry 1 0)
      = Some (sampleCount (mkClassEntry 1 0) + 1)
    ∧ classes st' !! "B"
      = Some (mkClassEntry (index (mkClassEntry 1 0))
                (sampleCount (mkClassEntry 1 0) + 1))
    ∧ countsAgree st'
    ∧ isDown st' = true ∧ current st' = Some "B".
Proof.
  apply (animate_record_reports firstK (exec (buttonDown "B") three_classes)
           frame_ones "B" (mkClassEntry 1 0)).
  - apply buttonDown_Inv, constructor_Inv.
  - exact (constructor_countsAgree ["A"; "B"; "C"]).
  - reflexivity.
  - reflexivity.
  - reflexivity.
  - simpl. unfold CLASS_COUNT. lia.
  - reflexivity.
Defined.

Lemma saveTrainingLogits_no_slot st frame key e :
  length (trainClassLogitsMatrices st) ≤ index e →
  current st = Some key → classes st !! key = Some e →
  saveTrainingLogits frame st
  = (Throw TypeError, set_trainLogitsMatrix None st).
Proof.
  intros Hlen Hcur Hcls.
  pose proof (lookup_ge_None_2 _ _ Hlen) as Hm.
  unfold saveTrainingLogits, currentIndex, currentEntry. unfold_M.
  destruct st as [names cls down cur [t|] ctr mats cnts]; simpl in *; subst cur;
    rewrite Hcls; simpl; rewrite Hm; reflexivity.
Qed.

(** C3, as the claim states it, at a fourth class: with the classes A, B,
    C and D configured and the button of D held, [saveTrainingLogits] does
    not return; it raises a TypeError at the slot that is not there, and no
    count is incremented. *)
Lemma saveTrainingLogits_appends_counterexample :
  current four_classes_D = Some "D"
  ∧ classes four_classes_D !! "D" = Some (mkClassEntry 3 0)
  ∧ saveTrainingLogits frame_ones four_classes_D
    = (Throw TypeError, set_trainLogitsMatrix None four_classes_D)
  ∧ classExampleCount (set_trainLogitsMatrix None four_classes_D) = [0; 0; 0]
  ∧ ¬ ∃ st', saveTrainingLogits frame_ones four_classes_D = (Val (), st').
Proof.
  assert (H : saveTrainingLogits frame_ones four_classes_D
              = (Throw TypeError, set_trainLogitsMatrix None four_classes_D)).
  { apply (saveTrainingLogits_no_slot _ _ "D" (mkClassEntry 3 0));
      [vm_compute; lia|reflexivity|reflexivity]. }
  split; [reflexivity|]. split; [reflexivity|]. split; [exact H|].
  split; [reflexivity|]. intros [st' H']. rewrite H in H'. discriminate.
Qed.

(** X9.  The classifier has [CLASS_COUNT] = 3 slots whatever the number of
    configured classes: recording for a class whose index is 3 or more
    raises a TypeError, in [saveTrainingLogits] and in the tick that calls
    it; nothing is recorded, only the cached training matrix is dropped. *)
Theorem saveTrainingLogits_fourth_class (topK : list R → nat → list nat)
    (st : WebcamClassifier) (frame : NDArray) (key : string) (e : ClassEntry) :
  Inv st →
  isDown st = true → current st = Some key → classes st !! key = Some e →
  CLASS_COUNT ≤ index e →
  saveTrainingLogits frame st
  = (Throw TypeError, set_trainLogitsMatrix None st)
  ∧ animate topK frame st = (Throw TypeError, set_trainLogitsMatrix None st)
  ∧ getNumExamples (set_trainLogitsMatrix None st) = getNumExamples st.
Proof.
  intros HI Hd Hcur Hcls Hidx.
  assert (Hlen : length (trainClassLogitsMatrices st) ≤ index e).
  { rewrite (Forall2_length _ _ _ (inv_class st HI)), (inv_length st HI).
    exact Hidx. }
  pose proof (saveTrainingLogits_no_slot st frame key e Hlen Hcur Hcls) as Hrun.
  split; [exact Hrun|]. split; [|reflexivity].
  unfold animate, animate_record. rewrite Hd.
  rewrite (bind_Val _ _ _ _ _ (currentIndex_selected st key e Hcur Hcls)).
  now rewrite (bind_Throw _ _ _ _ _ Hrun).
Qed.

Lemma saveTrainingLogits_fourth_class_witness :
  saveTrainingLogits frame_ones four_classes_D
  = (Throw TypeError, set_trainLogitsMatrix None four_classes_D)
  ∧ animate firstK frame_ones four_classes_D
    = (Throw TypeError, set_trainLogitsMatrix None four_classes_D)
  ∧ getNumExamples (set_trainLogitsMatrix None four_classes_D)
    = getNumExamples four_classes_D.
Proof.
  apply (saveTrainingLogits_fourth_class firstK four_classes_D frame_ones
           "D" (mkClassEntry 3 0)).
  - apply buttonDown_Inv, constructor_Inv.
  - reflexivity.
  - reflexivity.
  - reflexivity.
  - simpl. unfold CLASS_COUNT. lia.
Defined.

(** X10.  [buttonDown] with an id that is no configured class and names no
    member of [Object.prototype] (no class being named [__proto__], which
    would put an entry on the prototype chain of [this.classes]) raises a
    TypeError after it has set the button flag and left no class selected;
    the next tick then raises a TypeError as well and records nothing. *)
Theorem buttonDown_unknown (topK : list R → nat → list nat)
    (st : WebcamClassifier) (id : string) (frame : NDArray) :
  classes st !! id = None →
  id ∉ objectPrototype →
  classes st !! "__proto__" = None →
  buttonDown id st = (Throw TypeError, set_isDown true (set_current None st))
  ∧ animate topK frame (set_isDown true (set_current None st))
    = (Throw TypeError, set_isDown true (set_current None st)).
Proof.
  intros Hid _ _. split.
  - unfold buttonDown. unfold_M. now rewrite Hid.
  - unfold animate, animate_record. simpl.
    apply bind_Throw, currentIndex_null. reflexivity.
Qed.

Lemma buttonDown_unknown_witness :
  buttonDown "Z" three_classes
  = (Throw TypeError, set_isDown true (set_current None three_classes))
  ∧ animate firstK frame_ones (set_isDown true (set_current None three_classes))
    = (Throw TypeError, set_isDown true (set_current None three_classes)).
Proof.
  apply (buttonDown_unknown firstK three_classes "Z" frame_ones).
  - reflexivity.
  - unfold objectPrototype. intros H.
    repeat (apply elem_of_cons in H as [H|H]; [discriminate H|]).
    now apply elem_of_nil in H.
  - reflexivity.
Defined.

(** * The constructor and clearing beyond the claims *)

Lemma constructor_classes_notin names :
  ∀ i acc key,
    key ∉ names → constructor_classes names i acc !! key = acc !! key.
Proof.
  induction names as [|name rest IH]; intros i acc key Hkey; [reflexivity|].
  apply not_elem_of_cons in Hkey as [Hne Hrest]. simpl.
  rewrite IH by exact Hrest. now apply lookup_insert_ne.
Qed.

Lemma constructor_classes_last names :
  ∀ i acc j key,
    names !! j = Some key → key ∉ drop (S j) names →
    constructor_classes names i acc !! key = Some (mkClassEntry (i + j) 0).
Proof.
  induction names as [|name rest IH]; intros i acc j key Hj Hlast; [done|].
  destruct j as [|j]; simpl in *.
  - injection Hj as ->. rewrite drop_0 in Hlast.
    rewrite constructor_classes_notin by exact Hlast.
    rewrite lookup_insert_eq, Nat.add_0_r. reflexivity.
  - rewrite (IH (S i) _ j key Hj Hlast). do 2 f_equal. lia.
Qed.

(** X11.  After construction the class object of a name is the one made
    for its last occurrence in [options.classes]: it carries that index and
    no sample; a name that is not configured has no class object; and the
    classifier has three null slots and no example. *)
Theorem constructor_lookup (options : list string) (j : nat) (name : string) :
  options !! j = Some name → name ∉ drop (S j) options →
  classes (constructor options) !! name = Some (mkClassEntry j 0)
  ∧ (∀ other, other ∉ options → classes (constructor options) !! other = None)
  ∧ trainClassLogitsMatrices (constructor options) = [None; None; None]
  ∧ getNumExamples (constructor options) = 0.
Proof.
  intros Hj Hlast. split; [|split; [|split; reflexivity]].
  - exact (constructor_classes_last options 0 ∅ j name Hj Hlast).
  - intros other Hother. simpl.
    now rewrite constructor_classes_notin by exact Hother.
Qed.

Lemma constructor_lookup_witness :
  classes (constructor ["A"; "B"; "A"]) !! "A" = Some (mkClassEntry 2 0)
  ∧ (∀ other, other ∉ ["A"; "B"; "A"] →
              classes (constructor ["A"; "B"; "A"]) !! other = None)
  ∧ trainClassLogitsMatrices (constructor ["A"; "B"; "A"]) = [None; None; None]
  ∧ getNumExamples (constructor ["A"; "B"; "A"]) = 0.
Proof.
  apply (constructor_lookup ["A"; "B"; "A"] 2 "A").
  - reflexivity.
  - simpl. apply not_elem_of_nil.
Defined.

(** X12.  With the training matrix cached, [deleteClassData] on a class
    that has examples returns normally: the slot of the class is null, its
    counter and the sample count of its class object are 0, the cache is
    dropped, the other slots and counters are untouched, and the object is
    consistent.  A second call on the same class changes nothing. *)
Theorem deleteClassData_clears (st : WebcamClassifier) (index : nat)
    (a t : NDArray) :
  Inv st →
  trainClassLogitsMatrices st !! index = Some (Some a) →
  trainLogitsMatrix st = Some t →
  ∃ st' name i,
    deleteClassData index st = (Val (), st')
    ∧ trainClassLogitsMatrices st' !! index = Some None
    ∧ classExampleCount st' !! index = Some 0
    ∧ classNames st !! index = Some name
    ∧ classes st' !! name = Some (mkClassEntry i 0)
    ∧ trainLogitsMatrix st' = None
    ∧ (∀ j, j ≠ index →
         trainClassLogitsMatrices st' !! j = trainClassLogitsMatrices st !! j
         ∧ classExampleCount st' !! j = classExampleCount st !! j)
    ∧ Inv st'
    ∧ deleteClassData index st' = (Val (), st').
Proof.
  intros HI Hm Ht.
  destruct (deleteClassData_cached st index a t HI Hm Ht)
    as (name & i & s & Hname & Hcls & Hrun).
  pose proof (lookup_lt_Some _ _ _ Hm) as Hlt.
  assert (Hltc : index < length (classExampleCount st)).
  { now rewrite <- (Forall2_length _ _ _ (inv_class st HI)). }
  eexists _, name, i. split; [exact Hrun|]. simpl.
  assert (Hslot : <[index := None]> (trainClassLogitsMatrices st) !! index
                  = Some None) by now apply list_lookup_insert_eq.
  split; [exact Hslot|].
  split; [now apply list_lookup_insert_eq|].
  split; [exact Hname|].
  split; [apply lookup_insert_eq|].
  split; [reflexivity|].
  split; [|split].
  - intros j Hj. split; apply list_lookup_insert_ne; congruence.
  - apply (Inv_sampleCount _ name (mkClassEntry i s) 0);
      [now apply Inv_slot_cleared|exact Hcls].
  - unfold deleteClassData. unfold_M. simpl. now rewrite Hslot.
Qed.


Lemma five_three_cached_Inv : Inv five_three_cached.
Proof. apply animate_Inv; [exact five_three_Inv|reflexivity]. Qed.

Lemma deleteClassData_clears_witness :
  ∃ st' name i,
    deleteClassData 1 five_three_cached = (Val (), st')
    ∧ trainClassLogitsMatrices st' !! 1 = Some None
    ∧ classExampleCount st' !! 1 = Some 0
    ∧ classNames five_three_cached !! 1 = Some name
    ∧ classes st' !! name = Some (mkClassEntry i 0)
    ∧ trainLogitsMatrix st' = None
    ∧ (∀ j, j ≠ 1 →
         trainClassLogitsMatrices st' !! j
         = trainClassLogitsMatrices five_three_cached !! j
         ∧ classExampleCount st' !! j = classExampleCount five_three_cached !! j)
    ∧ Inv st'
    ∧ deleteClassData 1 st' = (Val (), st').
Proof.
  apply (deleteClassData_clears five_three_cached 1
           (slotMatrix five_three_cached 1) (cachedMatrix five_three_cached)).
  - exact five_three_cached_Inv.
  - reflexivity.
  - reflexivity.
Defined.

(** * Runs of events *)

Lemma constructor_classes_keys names :
  ∀ i acc id,
    id ∈ names ∨ is_Some (acc !! id) →
    is_Some (constructor_classes names i acc !! id).
Proof.
  induction names as [|name rest IH]; intros i acc id [Hin|Hacc]; simpl.
  - now apply elem_of_nil in Hin.
  - exact Hacc.
  - apply IH. apply elem_of_cons in Hin as [->|Hin]; [right|now left].
    rewrite lookup_insert_eq. eauto.
  - apply IH. right. rewrite lookup_insert_is_Some. 
    destruct (decide (name = id)); [now left|now right].
Qed.

Lemma constructor_Good options : Good options (constructor options).
Proof.
  constructor.
  - apply constructor_Inv.
  - apply constructor_countsAgree.
  - reflexivity.
  - intros id Hid. simpl. apply constructor_classes_keys. now left.
  - discriminate.
Qed.

Lemma Good_index options st key e :
  length options ≤ CLASS_COUNT → Good options st →
  classes st !! key = Some e → index e < CLASS_COUNT.
Proof.
  intros Hlen HG Hcls.
  pose proof (inv_names st (good_Inv _ _ HG) key e Hcls) as H.
  apply lookup_lt_Some in H. rewrite (good_names _ _ HG) in H. lia.
Qed.

Section Runs.

Variable topK : list R → nat → list nat.
Variable options : list string.
Hypothesis options_fit : length options ≤ CLASS_COUNT.

Lemma fire_Good st ev :
  Good options st → wfEvent options ev →
  ∃ ticks st',
    fire topK ev st = (Val ticks, st')
    ∧ Good options st'
    ∧ isDown st' = match ev with
                   | ButtonDown _ => true
                   | ButtonUp => false
                   | Frame _ => isDown st
                   end
    ∧ getNumExamples st'
      = match ev with
        | Frame _ => (if isDown st then 1 else 0) + getNumExamples st
        | _ => getNumExamples st
        end.
Proof.
  intros HG Hev. pose proof (good_Inv _ _ HG) as HI.
  destruct ev as [id| |logits]; simpl in Hev.
  - destruct (good_keys _ _ HG id Hev) as [e He].
    eexists _, _. split.
    + unfold fire, buttonDown. unfold_M. rewrite He. reflexivity.
    + split; [|split; reflexivity].
      destruct HG as [H1 H2 H3 H4 H5]. constructor; simpl; try done.
      * now apply Inv_set_isDown, Inv_set_current.
      * intros _. exists id. split; [reflexivity|]. eauto.
  - eexists _, _. split; [reflexivity|]. split; [|split; reflexivity].
    destruct HG as [H1 H2 H3 H4 H5]. constructor; simpl; try done.
    now apply Inv_set_current, Inv_set_isDown.
  - destruct (isDown st) eqn:Hd.
    + destruct (good_current _ _ HG Hd) as (key & Hcur & [e Hcls]).
      pose proof (Good_index options st key e options_fit HG Hcls) as Hidx.
      destruct (animate_record_ok st logits key e HI Hcur Hcls Hidx Hev)
        as (new & Hrun & Hshape).
      eexists _, _. split.
      * unfold fire, animate. unfold_M. rewrite Hd, Hrun. reflexivity.
      * split; [|split].
        -- constructor; simpl.
           ++ apply (Inv_sampleCount _ key e); [|exact Hcls].
              now apply (Inv_recorded st key e new).
           ++ apply countsAgree_recorded; try assumption. exact (good_agree _ _ HG).
           ++ exact (good_names _ _ HG).
           ++ intros id Hid. rewrite lookup_insert_is_Some.
              destruct (decide (key = id)); [now left|right].
              split; [assumption|]. exact (good_keys _ _ HG id Hid).
           ++ intros _. exists key. split; [exact Hcur|].
              rewrite lookup_insert_eq. eauto.
        -- exact Hd.
        -- simpl. unfold getNumExamples. simpl.
           rewrite !foldl_plus_sum_list, sum_list_alter_S; [lia|].
           rewrite (inv_length st HI). exact Hidx.
    + destruct (Nat.ltb_spec 0 (getNumExamples st)) as [Hpos|Hzero].
      * destruct (animate_classify_ok topK st logits HI Hpos Hev)
          as (t & knn & Hrun & Ht & _).
        eexists _, _. split.
        -- unfold fire, animate. unfold_M.
           rewrite Hd, (proj2 (Nat.ltb_lt _ _) Hpos), Hrun. reflexivity.
        -- split; [|split; [exact Hd|reflexivity]].
           destruct HG as [H1 H2 H3 H4 H5]. constructor; simpl; try done.
           apply (Inv_set_measureTimingCounter (set_trainLogitsMatrix (Some t) st)).
           now apply Inv_cached.
      * eexists _, _. split.
        -- unfold fire, animate. unfold_M.
           rewrite Hd, (proj2 (Nat.ltb_ge _ _) Hzero). reflexivity.
        -- split; [exact HG|]. split; [exact Hd|reflexivity].
Qed.

Lemma fireAll_Good evs :
  ∀ st,
    Good options st → Forall (wfEvent options) evs →
    ∃ ticks st',
      fireAll topK evs st = (Val ticks, st')
      ∧ Good options st'
      ∧ getNumExamples st' = recordings (isDown st) evs + getNumExamples st.
Proof.
  induction evs as [|ev evs IH]; intros st HG Hevs.
  - exists [], st. split; [reflexivity|]. split; [exact HG|reflexivity].
  - apply Forall_cons in Hevs as [Hev Hevs].
    destruct (fire_Good st ev HG Hev) as (ticks & st1 & Hrun & HG1 & Hd1 & Hn1).
    destruct (IH st1 HG1 Hevs) as (more & st' & Hrun' & HG' & Hn').
    exists (ticks ++ more), st'. split; [|split; [exact HG'|]].
    + simpl. unfold_M. rewrite Hrun, Hrun'. reflexivity.
    + rewrite Hn', Hd1, Hn1. destruct ev; simpl; lia.
Qed.

(** X13.  From a fresh classifier with at most three classes, every run of
    button presses on configured classes, releases and ticks goes through
    without an exception; the object stays consistent, the sample counts
    agree with the example counters, and the total example count is the
    number of ticks that came while a button was held. *)
Theorem fireAll_safe (evs : list Event) :
  Forall (wfEvent options) evs →
  ∃ ticks st',
    fireAll topK evs (constructor options) = (Val ticks, st')
    ∧ Inv st' ∧ countsAgree st'
    ∧ getNumExamples st' = recordings false evs.
Proof.
  intros Hevs.
  destruct (fireAll_Good evs (constructor options)
              (constructor_Good options) Hevs)
    as (ticks & st' & Hrun & HG & Hn).
  exists ticks, st'. split; [exact Hrun|].
  split; [exact (good_Inv _ _ HG)|]. split; [exact (good_agree _ _ HG)|].
  rewrite Hn. simpl. change (getNumExamples (constructor options)) with 0. lia.
Qed.

End Runs.

Lemma fireAll_safe_witness :
  ∃ ticks st',
    fireAll firstK sample_run (constructor ["A"; "B"; "C"]) = (Val ticks, st')
    ∧ Inv st' ∧ countsAgree st'
    ∧ getNumExamples st' = recordings false sample_run.
Proof.
  apply (fireAll_safe firstK ["A"; "B"; "C"]).
  - simpl. unfold CLASS_COUNT. lia.
  - unfold sample_run. repeat constructor.
Defined.

(** * Feature vectors and similarities beyond the claims *)

Section Similarity.
Local Open Scope R_scope.

Lemma sumSquares_normalised (v : list R) (x : R) :
  x ∈ v → x ≠ 0 →
  sumSquares (map (λ y, y / sqrt (sumSquares v)) v) = 1.
Proof.
  intros Hin Hx. pose proof (sumSquares_pos v x Hin Hx) as Hpos.
  rewrite sumSquares_scale.
  - rewrite sqrt_sqrt by lra. field. lra.
  - pose proof (sqrt_lt_R0 _ Hpos). lra.
Qed.

Lemma captureFrameSqueezeNetLogits_values logits :
  NDArray.values (captureFrameSqueezeNetLogits logits)
  = map (λ y, y / sqrt (sumSquares (map (λ y, y / 300) (NDArray.values logits))))
      (map (λ y, y / 300) (NDArray.values logits)).
Proof.
  unfold captureFrameSqueezeNetLogits, NDArray.divide, NDArray.multiplyStrict,
    NDArray.sum, squashLogitsDenominator. simpl.
  now rewrite zip_with_Rmult_diag.
Qed.

Lemma squashed_nonzero (v : list R) (x : R) :
  x ∈ v → x ≠ 0 → x / 300 ∈ map (λ y, y / 300) v ∧ x / 300 ≠ 0.
Proof.
  intros Hin Hx. split.
  - apply list_elem_of_In, in_map_iff. exists x. split; [reflexivity|].
    now apply list_elem_of_In.
  - intros H. apply Hx. lra.
Qed.

Lemma captureFrameSqueezeNetLogits_sumSquares logits x :
  x ∈ NDArray.values logits → x ≠ 0 →
  sumSquares (NDArray.values (captureFrameSqueezeNetLogits logits)) = 1.
Proof.
  intros Hin Hx. rewrite captureFrameSqueezeNetLogits_values.
  destruct (squashed_nonzero _ x Hin Hx) as [Hin' Hx'].
  exact (sumSquares_normalised _ _ Hin' Hx').
Qed.

(** X14.  In exact arithmetic the squash constant cancels: when the logits
    are not all zero, the feature vector is the logits divided by their own
    L2 norm. *)
Theorem captureFrameSqueezeNetLogits_direction (logits : NDArray) (x : R) :
  x ∈ NDArray.values logits → x ≠ 0 →
  NDArray.values (captureFrameSqueezeNetLogits logits)
  = map (λ y, y / l2norm (NDArray.values logits)) (NDArray.values logits).
Proof.
  intros Hin Hx. rewrite captureFrameSqueezeNetLogits_values.
  pose proof (sumSquares_pos _ x Hin Hx) as Hpos.
  rewrite sumSquares_scale by lra.
  assert (Hs : sqrt (sumSquares (NDArray.values logits) / (300 * 300))
               = l2norm (NDArray.values logits) / 300).
  { unfold l2norm. rewrite sqrt_div_alt by lra.
    now rewrite sqrt_square by lra. }
  rewrite Hs, map_map. apply map_ext. intros y.
  pose proof (sqrt_lt_R0 _ Hpos) as Hn. unfold l2norm. field. lra.
Qed.

Lemma captureFrameSqueezeNetLogits_direction_witness :
  NDArray.values (captureFrameSqueezeNetLogits frame_34)
  = map (λ y, y / l2norm (NDArray.values frame_34)) (NDArray.values frame_34).
Proof.
  apply (captureFrameSqueezeNetLogits_direction frame_34 3).
  - simpl. left.
  - lra.
Defined.

Lemma dot_diag (v : list R) : NDArray.dot v v = sumSquares v.
Proof. unfold NDArray.dot, sumSquares. now rewrite zip_with_Rmult_diag. Qed.

Lemma dot_le_sumSquares (u : list R) :
  ∀ v, 2 * NDArray.dot u v <= sumSquares u + sumSquares v.
Proof.
  unfold NDArray.dot, sumSquares.
  induction u as [|x u IH]; intros [|y v]; simpl.
  - lra.
  - pose proof (sumSquares_nonneg (y :: v)) as H. unfold sumSquares in H.
    simpl in H. lra.
  - pose proof (sumSquares_nonneg (x :: u)) as H. unfold sumSquares in H.
    simpl in H. lra.
  - specialize (IH v). pose proof (Rle_0_sqr (x - y)) as Hxy.
    unfold Rsqr in Hxy. lra.
Qed.

Lemma dot_ge_sumSquares (u : list R) :
  ∀ v, - (sumSquares u + sumSquares v) <= 2 * NDArray.dot u v.
Proof.
  unfold NDArray.dot, sumSquares.
  induction u as [|x u IH]; intros [|y v]; simpl.
  - lra.
  - pose proof (sumSquares_nonneg (y :: v)) as H. unfold sumSquares in H.
    simpl in H. lra.
  - pose proof (sumSquares_nonneg (x :: u)) as H. unfold sumSquares in H.
    simpl in H. lra.
  - specialize (IH v). pose proof (Rle_0_sqr (x + y)) as Hxy.
    unfold Rsqr in Hxy. lra.
Qed.

(** X15.  The similarity the classifier computes between two feature
    vectors, their dot product, lies between -1 and 1, and the similarity
    of a feature vector with itself is exactly 1: no row of the training
    matrix is more similar to a frame than a row recorded from the same
    logits (exact arithmetic, logits not all zero). *)
Theorem similarity_bounds (logits1 logits2 : NDArray) (x1 x2 : R) :
  x1 ∈ NDArray.values logits1 → x1 ≠ 0 →
  x2 ∈ NDArray.values logits2 → x2 ≠ 0 →
  -1 <= NDArray.dot (NDArray.values (captureFrameSqueezeNetLogits logits1))
          (NDArray.values (captureFrameSqueezeNetLogits logits2)) <= 1
  ∧ NDArray.dot (NDArray.values (captureFrameSqueezeNetLogits logits1))
      (NDArray.values (captureFrameSqueezeNetLogits logits1)) = 1.
Proof.
  intros H1 Hx1 H2 Hx2.
  pose proof (captureFrameSqueezeNetLogits_sumSquares logits1 x1 H1 Hx1) as Hu.
  pose proof (captureFrameSqueezeNetLogits_sumSquares logits2 x2 H2 Hx2) as Hv.
  pose proof (dot_le_sumSquares
                (NDArray.values (captureFrameSqueezeNetLogits logits1))
                (NDArray.values (captureFrameSqueezeNetLogits logits2))) as Hle.
  pose proof (dot_ge_sumSquares
                (NDArray.values (captureFrameSqueezeNetLogits logits1))
                (NDArray.values (captureFrameSqueezeNetLogits logits2))) as Hge.
  rewrite Hu, Hv in Hle, Hge.
  split; [lra|]. now rewrite dot_diag.
Qed.

Lemma similarity_bounds_witness :
  -1 <= NDArray.dot (NDArray.values (captureFrameSqueezeNetLogits frame_34))
          (NDArray.values (captureFrameSqueezeNetLogits frame_ones)) <= 1
  ∧ NDArray.dot (NDArray.values (captureFrameSqueezeNetLogits frame_34))
      (NDArray.values (captureFrameSqueezeNetLogits frame_34)) = 1.
Proof.
  apply (similarity_bounds frame_34 frame_ones 3 1).
  - simpl. left.
  - lra.
  - apply list_elem_of_here.
  - lra.
Defined.

End Similarity.

(** * Rows of the reference set and their classes *)

Lemma mjoin_drop_blocks {A} (k : nat) (bufs : list (list A)) :
  ∀ counts c,
    Forall2 (λ b n, length b = n * k) bufs counts →
    drop (classStart counts c * k) (mjoin bufs) = mjoin (drop c bufs).
Proof.
  unfold classStart.
  induction bufs as [|b bufs IH]; intros counts c HF.
  - apply Forall2_nil_inv_l in HF as ->. now rewrite take_nil, drop_nil.
  - apply Forall2_cons_inv_l in HF as (n & counts' & Hb & HF & ->).
    destruct c as [|c]; [reflexivity|].
    change (drop ((n + sum_list (take c counts')) * k) (b ++ mjoin bufs)
            = mjoin (drop c bufs)).
    rewrite Nat.mul_add_distr_r, <- Hb, drop_app_add. now apply IH.
Qed.

Lemma row_in_block {A} (k d : nat) (b rest : list A) :
  d * k + k ≤ length b →
  take k (drop (d * k) (b ++ rest)) = take k (drop (d * k) b).
Proof.
  intros H. rewrite drop_app_le by lia.
  apply take_app_le. rewrite length_drop. lia.
Qed.

Lemma Inv_block_lengths st :
  Inv st → BufOk st →
  Forall2 (λ b n, length b = n * INPUT_SIZE)
    (exampleSet <$> trainClassLogitsMatrices st) (classExampleCount st).
Proof.
  intros HI HB. apply Forall2_fmap_l.
  apply Forall2_same_length_lookup. split.
  - exact (Forall2_length _ _ _ (inv_class st HI)).
  - intros i m n Hm Hn.
    pose proof (Forall2_lookup_lr _ _ _ _ _ _ (inv_class st HI) Hm Hn) as Hok.
    destruct m as [a|]; simpl in *.
    + destruct Hok as [_ Hshape].
      rewrite (HB i a Hm). now apply size_rows.
    + now subst n.
Qed.

Lemma rebuilt_row st t i :
  Inv st → BufOk st → i < getNumExamples st →
  NDArray.values t
  = mjoin (NDArray.values <$> storedMatrices (trainClassLogitsMatrices st)) →
  trainClassLogitsMatrices st !! getClassFromIndex st i
  = Some (Some (slotMatrix st (getClassFromIndex st i)))
  ∧ NDArray.row 1000 (NDArray.values t) i
    = NDArray.row 1000
        (NDArray.values (slotMatrix st (getClassFromIndex st i)))
        (i - classStart (classExampleCount st) (getClassFromIndex st i)).
Proof.
  intros HI HB Hi Hvals.
  pose proof (inv_length st HI) as Hlen.
  pose proof (Forall2_length _ _ _ (inv_class st HI)) as Hlm.
  destruct (getClassFromIndex_owns_self st i Hlen Hi) as [Hc [Hlo Hhi]].
  set (c := getClassFromIndex st i) in *.
  destruct (lookup_lt_is_Some_2 (classExampleCount st) c Hc) as [n Hn].
  destruct (lookup_lt_is_Some_2 (trainClassLogitsMatrices st) c) as [m Hm];
    [lia|].
  rewrite (list_lookup_total_correct _ _ _ Hn) in Hhi.
  pose proof (Forall2_lookup_lr _ _ _ _ _ _ (inv_class st HI) Hm Hn) as Hok.
  destruct m as [a|]; simpl in Hok; [|lia].
  destruct Hok as [_ Hshape].
  assert (Hslot : slotMatrix st c = a) by (unfold slotMatrix; now rewrite Hm).
  rewrite Hslot. split; [exact Hm|].
  rewrite Hvals, <- mjoin_exampleSet. unfold NDArray.row.
  pose proof (mjoin_drop_blocks INPUT_SIZE _ _ c (Inv_block_lengths st HI HB))
    as Hdrop.
  replace (i * 1000)
    with (classStart (classExampleCount st) c * INPUT_SIZE
          + (i - classStart (classExampleCount st) c) * 1000)
    by (unfold INPUT_SIZE; lia).
  rewrite <- drop_drop, Hdrop.
  rewrite (drop_S _ (exampleSet (Some a)) c)
    by (rewrite list_lookup_fmap, Hm; reflexivity).
  change (mjoin (exampleSet (Some a)
                   :: drop (S c) (exampleSet <$> trainClassLogitsMatrices st)))
    with (NDArray.values a
            ++ mjoin (drop (S c) (exampleSet <$> trainClassLogitsMatrices st))).
  apply (row_in_block 1000).
  rewrite (HB c a Hm), (size_rows a n Hshape). unfold INPUT_SIZE. lia.
Qed.

(** X16.  On a consistent object (every class slot null with counter 0,
    or a matrix of as many rows of 1000 numbers as its counter says, with a
    buffer of that size), the rows of the rebuilt training matrix and
    [getClassFromIndex] agree: for every row index [i] below the total
    example count, row [i] of the rebuilt matrix is the row of the class
    matrix of [getClassFromIndex(i)] at offset [i] minus the number of rows
    of the classes before it. *)
Theorem rebuild_row_owner (st : WebcamClassifier) (i : nat) :
  Inv st → BufOk st → i < getNumExamples st →
  ∃ t,
    rebuild st = (Val (), set_trainLogitsMatrix (Some t) st)
    ∧ trainClassLogitsMatrices st !! getClassFromIndex st i
      = Some (Some (slotMatrix st (getClassFromIndex st i)))
    ∧ NDArray.row 1000 (NDArray.values t) i
      = NDArray.row 1000
          (NDArray.values (slotMatrix st (getClassFromIndex st i)))
          (i - classStart (classExampleCount st) (getClassFromIndex st i)).
Proof.
  intros HI HB Hi.
  destruct (rebuild_ok st HI ltac:(lia)) as (t & Hrun & Hvals & _).
  exists t. split; [exact Hrun|]. now apply rebuilt_row.
Qed.

Lemma saveTrainingLogits_BufOk st frame :
  Inv st → BufOk st →
  length (NDArray.values frame) = INPUT_SIZE →
  BufOk (exec (saveTrainingLogits frame) st).
Proof.
  intros HI HB Hbuf. unfold exec.
  destruct (saveTrainingLogits frame st) as [[[]|x] st'] eqn:Hrun; simpl.
  - destruct (saveTrainingLogits_Val _ _ _ Hrun)
      as (key & e & Hcur & Hcls & Hslot & Hsize).
    pose proof Hslot as Hlt. apply lookup_lt_is_Some_1 in Hlt.
    rewrite (Forall2_length _ _ _ (inv_class st HI)), (inv_length st HI) in Hlt.
    destruct (saveTrainingLogits_ok st frame key e HI Hcur Hcls Hlt Hsize)
      as (new & Hrun' & Hvals & Hshape).
    rewrite Hrun' in Hrun. injection Hrun as <-.
    intros i a Hi. simpl in Hi.
    apply list_lookup_insert_Some in Hi as [(<- & [= <-] & _)|[_ Hi]];
      [|now apply (HB i a)].
    rewrite Hvals, length_app, (size_rows new _ Hshape).
    rewrite captureFrameSqueezeNetLogits_values, !length_map, Hbuf.
    destruct (lookup_lt_is_Some_2 (classExampleCount st) (index e)) as [n Hn].
    { rewrite (inv_length st HI). exact Hlt. }
    destruct Hslot as [m Hm].
    pose proof (Forall2_lookup_lr _ _ _ _ _ _ (inv_class st HI) Hm Hn) as Hok.
    rewrite Hm, Hn.
    change (default None (Some m)) with m. change (default 0 (Some n)) with n.
    destruct m as [old|]; cbn [exampleSet length class_ok] in *.
    + destruct Hok as [_ Hold].
      rewrite (HB _ old Hm), (size_rows old n Hold). lia.
    + subst n. lia.
  - rewrite (saveTrainingLogits_Throw_state _ _ _ _ Hrun). exact HB.
Qed.

Lemma animate_BufOk topK st frame :
  Inv st → BufOk st →
  NDArray.size frame = INPUT_SIZE →
  length (NDArray.values frame) = INPUT_SIZE →
  BufOk (exec (animate topK frame) st).
Proof.
  intros HI HB Hsize Hbuf. unfold exec, animate.
  destruct (isDown st).
  - unfold animate_record, currentIndex. unfold_M.
    destruct (currentEntry st) as [[ke|x] s0] eqn:H0;
      pose proof (currentEntry_state _ _ _ H0) as ->; simpl; [|exact HB].
    pose proof (saveTrainingLogits_BufOk st frame HI HB Hbuf) as HB1.
    unfold exec in HB1.
    destruct (saveTrainingLogits frame st) as [[[]|x] s1]; simpl in *;
      [|exact HB1].
    destruct (currentEntry s1) as [[[key e]|x] s2] eqn:H2;
      pose proof (currentEntry_state _ _ _ H2) as ->; simpl; exact HB1.
  - destruct (Nat.ltb_spec 0 (getNumExamples st)) as [Hpos|_]; [|exact HB].
    destruct (animate_classify_ok topK st frame HI Hpos Hsize)
      as (t & knn & Hrun & _).
    rewrite Hrun. exact HB.
Qed.

Lemma hold_Inv_BufOk id n st : Inv st → BufOk st → BufOk (hold id n st).
Proof.
  intros HI HB. unfold hold.
  assert (H : Inv (Nat.iter n (exec (animate firstK frame_ones))
                     (exec (buttonDown id) st))
              ∧ BufOk (Nat.iter n (exec (animate firstK frame_ones))
                         (exec (buttonDown id) st))).
  { induction n as [|n [IH1 IH2]]; simpl.
    - split; [now apply buttonDown_Inv|].
      unfold exec, buttonDown. unfold_M.
      destruct (classes st !! id); exact HB.
    - split; [now apply animate_Inv|].
      apply animate_BufOk; try assumption; reflexivity. }
  exact (proj2 H).
Qed.

Lemma five_three_BufOk : BufOk five_three.
Proof.
  apply hold_Inv_BufOk; [apply hold_Inv, constructor_Inv|].
  apply hold_Inv_BufOk; [apply constructor_Inv|].
  intros [|[|[|i]]] a; discriminate.
Qed.

Lemma rebuild_row_owner_witness :
  ∃ t,
    rebuild five_three = (Val (), set_trainLogitsMatrix (Some t) five_three)
    ∧ trainClassLogitsMatrices five_three !! getClassFromIndex five_three 6
      = Some (Some (slotMatrix five_three (getClassFromIndex five_three 6)))
    ∧ NDArray.row 1000 (NDArray.values t) 6
      = NDArray.row 1000
          (NDArray.values (slotMatrix five_three (getClassFromIndex five_three 6)))
          (6 - classStart (classExampleCount five_three)
                 (getClassFromIndex five_three 6)).
Proof.
  apply (rebuild_row_owner five_three 6).
  - exact five_three_Inv.
  - exact five_three_BufOk.
  - vm_compute. lia.
Defined.

(** * The animation loop *)

Lemma filter_ne_single (h : nat) : filter (λ h', h' ≠ h) [h] = [].
Proof. rewrite filter_cons, filter_nil. now destruct (decide (h ≠ h)). Qed.

Lemma stopTimer_oneLoop l :
  oneLoop l → is_Some (timer l) →
  callbacks (stopTimer l) = [] ∧ awaited (stopTimer l) = 0.
Proof.
  intros [Ha [Hc|(h & Ht & Hc)]] [h' Ht']; unfold stopTimer; simpl;
    rewrite Ht'; simpl; rewrite Hc; [done|].
  rewrite Ht in Ht'. injection Ht' as <-. now rewrite filter_ne_single.
Qed.

Lemma startTimer_running l :
  oneLoop l →
  running (startTimer l)
  ∧ awaited (startTimer l) = 0
  ∧ (active l = false → active (startTimer l) = false).
Proof.
  intros HL.
  assert (Hc : callbacks (match timer l with
                          | Some _ => stopTimer l
                          | None => l
                          end) = []
               ∧ awaited (match timer l with
                          | Some _ => stopTimer l
                          | None => l
                          end) = 0).
  { destruct (timer l) as [h|] eqn:Ht.
    - apply stopTimer_oneLoop; [exact HL|]. rewrite Ht. eauto.
    - destruct HL as [Ha [Hc|(h & Hh & _)]]; [done|congruence]. }
  destruct Hc as [Hc Ha].
  split; [|split; [exact Ha|]].
  - eexists. unfold startTimer, requestTimer. simpl. rewrite Hc.
    split; reflexivity.
  - intros Hact. unfold startTimer. simpl.
    destruct (timer l); [reflexivity|exact Hact].
Qed.

(** X17.  When one loop at most is under way (no classification is
    awaited and no frame is requested other than the one [timer] names),
    [startTimer] leaves exactly one frame requested, the one [timer] then
    names: a timer that is set is stopped first, so starting twice in a row
    does not start two loops.  It leaves the video playing and [wasActive]
    set; it never sets [active]. *)
Theorem startTimer_oneLoop (l : Scheduling) :
  oneLoop l →
  running (startTimer l)
  ∧ oneLoop (startTimer l)
  ∧ videoPlaying (startTimer l) = true
  ∧ wasActive (startTimer l) = true
  ∧ (active l = false → active (startTimer l) = false).
Proof.
  intros HL. destruct (startTimer_running l HL) as (Hrun & Ha & Hact).
  split; [exact Hrun|]. split; [|split; [reflexivity|split; [reflexivity|]]].
  - split; [exact Ha|]. right. exact Hrun.
  - exact Hact.
Qed.

Lemma startTimer_oneLoop_witness :
  running (startTimer (startTimer idle))
  ∧ oneLoop (startTimer (startTimer idle))
  ∧ videoPlaying (startTimer (startTimer idle)) = true
  ∧ wasActive (startTimer (startTimer idle)) = true
  ∧ (active (startTimer idle) = false →
     active (startTimer (startTimer idle)) = false).
Proof.
  apply (startTimer_oneLoop (startTimer idle)).
  split; [reflexivity|]. right. exists 1. split; reflexivity.
Defined.

(** X18.  [blur] on a running loop cancels the requested frame and pauses
    the video, and [focus] afterwards requests a frame again and plays the
    video; [stopTimer] does not clear [timer], and nothing here sets
    [active] again.  [focus] on an object that was never started does
    nothing. *)
Theorem blur_focus (l : Scheduling) :
  oneLoop l → running l →
  callbacks (blur l) = []
  ∧ videoPlaying (blur l) = false
  ∧ timer (blur l) = timer l
  ∧ running (focus (blur l))
  ∧ videoPlaying (focus (blur l)) = true
  ∧ active (focus (blur l)) = false
  ∧ focus idle = idle.
Proof.
  intros HL (h & Ht & Hc).
  assert (Hb : blur l = stopTimer l) by (unfold blur; now rewrite Ht).
  destruct (stopTimer_oneLoop l HL) as [Hc' Ha']; [rewrite Ht; eauto|].
  rewrite Hb. split; [exact Hc'|]. split; [reflexivity|].
  split; [reflexivity|].
  assert (HL' : oneLoop (stopTimer l)) by (split; [exact Ha'|now left]).
  assert (Hf : focus (stopTimer l) = startTimer (stopTimer l)) by reflexivity.
  rewrite Hf.
  destruct (startTimer_running (stopTimer l) HL') as (Hr & _ & Hact).
  split; [exact Hr|]. split; [reflexivity|]. split; [|reflexivity].
  apply Hact. reflexivity.
Qed.

Lemma blur_focus_witness :
  callbacks (blur (startTimer idle)) = []
  ∧ videoPlaying (blur (startTimer idle)) = false
  ∧ timer (blur (startTimer idle)) = timer (startTimer idle)
  ∧ running (focus (blur (startTimer idle)))
  ∧ videoPlaying (focus (blur (startTimer idle))) = true
  ∧ active (focus (blur (startTimer idle))) = false
  ∧ focus idle = idle.
Proof.
  apply (blur_focus (startTimer idle)).
  - split; [reflexivity|]. right. exists 1. split; reflexivity.
  - exists 1. split; reflexivity.
Defined.

Lemma runCallback_running l h :
  timer l = Some h → callbacks l = [h] → callbacks (runCallback h l) = [].
Proof. intros _ Hc. unfold runCallback. simpl. rewrite Hc. apply filter_ne_single. Qed.



(** X20.  While the similarities of a classifying tick are awaited,
    [timer] holds the handle of the frame that has run.  [blur] then
    cancels nothing: when the similarities arrive a frame is requested all
    the same, and the loop goes on with the video paused.  [startTimer]
    in that interval requests a frame of its own, and two frames are
    requested once the similarities arrive. *)
Theorem awaited_escapes_timer (l : Scheduling) (h : nat) :
  oneLoop l → timer l = Some h → callbacks l = [h] →
  running (tickClassified (blur (tickClassify h l)))
  ∧ videoPlaying (tickClassified (blur (tickClassify h l))) = false
  ∧ length (callbacks (tickClassified (startTimer (tickClassify h l)))) = 2.
Proof.
  intros _ Ht Hc.
  pose proof (runCallback_running l h Ht Hc) as Hr.
  unfold runCallback in Hr. simpl in Hr.
  unfold tickClassified, blur, startTimer, stopTimer, tickClassify,
    requestTimer, running. simpl. rewrite Ht. simpl. rewrite Hr. simpl.
  split; [|split; reflexivity].
  eexists. split; reflexivity.
Qed.

Lemma awaited_escapes_timer_witness :
  running (tickClassified (blur (tickClassify 1 (startTimer idle))))
  ∧ videoPlaying (tickClassified (blur (tickClassify 1 (startTimer idle))))
    = false
  ∧ length (callbacks
              (tickClassified (startTimer (tickClassify 1 (startTimer idle)))))
    = 2.
Proof.
  apply (awaited_escapes_timer (startTimer idle) 1).
  - split; [reflexivity|]. right. exists 1. split; reflexivity.
  - reflexivity.
  - reflexivity.
Defined.

(** * Counters after a clear *)

Lemma sum_list_insert_0 (l : list nat) (i n : nat) :
  l !! i = Some n → sum_list (<[i := 0]> l) + n = sum_list l.
Proof.
  revert i. induction l as [|x l IH]; intros [|i] H; simpl in *; try done.
  - injection H as ->. lia.
  - specialize (IH i H).
    change (x + sum_list (<[i := 0]> l) + n = x + sum_list l). lia.
Qed.


(** * The two halves of a classifying tick *)

Lemma animate_classify_split topK frame n st :
  animate_classify topK frame n st
  = (knn ← animate_knn frame n; computeConfidences topK knn n) st.
Proof.
  unfold animate_classify, animate_knn. unfold_M.
  destruct (trainLogitsMatrix st) as [t|]; cbn beta iota;
    [|destruct (rebuild st) as [[[]|x] s1]; cbn beta iota; [|reflexivity]];
    repeat (case_match; try reflexivity; simplify_eq).
Qed.

(** With no call between its two halves, a tick is [animate]. *)
Lemma animate_begin_end topK frame st :
  animate topK frame st = (b ← animate_begin frame; animate_end topK b) st.
Proof.
  unfold animate. rewrite animate_classify_split.
  unfold animate_begin. unfold_M. cbv beta.
  destruct (isDown st).
  - destruct (animate_record frame st) as [[tick|x] s1]; reflexivity.
  - destruct (0 <? getNumExamples st); [|reflexivity].
    destruct (animate_knn frame (getNumExamples st) st) as [[knn|x] s1];
      reflexivity.
Qed.

Lemma animate_knn_ok st frame :
  Inv st → 0 < getNumExamples st → NDArray.size frame = INPUT_SIZE →
  ∃ t knn,
    animate_knn frame (getNumExamples st) st
    = (Val knn, set_trainLogitsMatrix (Some t) st)
    ∧ NDArray.values knn = similarities t frame (getNumExamples st)
    ∧ NDArray.size t = getNumExamples st * INPUT_SIZE
    ∧ (∀ t0, trainLogitsMatrix st = Some t0 → t = t0)
    ∧ (trainLogitsMatrix st = None →
       NDArray.values t
       = mjoin (NDArray.values <$> storedMatrices (trainClassLogitsMatrices st))).
Proof.
  intros HI Hpos Hsize.
  pose proof (as2D_frame (captureFrameSqueezeNetLogits frame) Hsize) as Hframe.
  destruct (trainLogitsMatrix st) as [t|] eqn:Hc.
  - pose proof (inv_cache st HI t Hc) as Ht.
    exists t. eexists (NDArray.make _ _).
    split; [|split; [reflexivity|split; [exact Ht|split;
      [now intros t0 [= <-]|discriminate]]]].
    unfold animate_knn. unfold_M. rewrite Hc. cbn beta iota. rewrite Hc.
    rewrite (as2D_train t _ Ht), Hframe, matMul_column, as1D_column.
    destruct st; simpl in *; now subst.
  - destruct (rebuild_ok st HI Hpos) as (t & Hrun & Hvals & Hshape).
    pose proof (size_rows t _ Hshape) as Ht.
    exists t. eexists (NDArray.make _ _).
    split; [|split; [reflexivity|split; [exact Ht|split;
      [discriminate|intros _; exact Hvals]]]].
    unfold animate_knn. unfold_M. rewrite Hc, Hrun. cbn beta iota.
    change (trainLogitsMatrix (set_trainLogitsMatrix (Some t) st)) with (Some t).
    cbn beta iota.
    rewrite (as2D_train t _ Ht), Hframe, matMul_column, as1D_column.
    reflexivity.
Qed.

Lemma animate_begin_ok st frame :
  Inv st → isDown st = false → 0 < getNumExamples st →
  NDArray.size frame = INPUT_SIZE →
  ∃ t knn,
    animate_begin frame st
    = (Val (Awaiting knn (getNumExamples st)),
       set_trainLogitsMatrix (Some t) st)
    ∧ NDArray.values knn = similarities t frame (getNumExamples st)
    ∧ NDArray.size t = getNumExamples st * INPUT_SIZE
    ∧ (∀ t0, trainLogitsMatrix st = Some t0 → t = t0)
    ∧ (trainLogitsMatrix st = None →
       NDArray.values t
       = mjoin (NDArray.values <$> storedMatrices (trainClassLogitsMatrices st))).
Proof.
  intros HI Hd Hpos Hsize.
  destruct (animate_knn_ok st frame HI Hpos Hsize)
    as (t & knn & Hrun & Hknn & Ht & Hsame & Hnew).
  exists t, knn.
  split; [|split; [exact Hknn|split; [exact Ht|split; [exact Hsame|exact Hnew]]]].
  unfold animate_begin. rewrite Hd, (proj2 (Nat.ltb_lt _ _) Hpos).
  unfold_M. now rewrite Hrun.
Qed.

Lemma getNumExamples_counts st st' :
  classExampleCount st' = classExampleCount st →
  getNumExamples st' = getNumExamples st.
Proof. intros H. unfold getNumExamples. now rewrite H. Qed.

Lemma shares_empty_class topK counts sims n c :
  counts !! c = Some 0 → c < CLASS_COUNT →
  shares topK counts sims n !! c = Some 0%R.
Proof.
  intros Hc Hlt. unfold shares. rewrite list_lookup_fmap.
  rewrite (lookup_seq_lt 0 CLASS_COUNT c Hlt). simpl.
  rewrite (votes_empty_class _ _ c Hc). simpl. f_equal.
  unfold Rdiv. apply Rmult_0_l.
Qed.

Section Later.

Variable topK : list R → nat → list nat.
Hypothesis topK_length : ∀ v k, k ≤ length v → length (topK v k) = k.
Hypothesis topK_range : ∀ v k i, k ≤ length v → i ∈ topK v k → i < length v.
Hypothesis topK_NoDup : ∀ v k, k ≤ length v → NoDup (topK v k).

(** [computeConfidences] on the object as it is when it runs, when the
    counters still add up to the number of similarities. *)
Lemma computeConfidences_later st knn :
  length (classExampleCount st) = CLASS_COUNT →
  length (NDArray.values knn) = getNumExamples st →
  computeConfidences topK knn (getNumExamples st) st
  = (Val (Classified
            (shares topK (classExampleCount st) (NDArray.values knn)
               (getNumExamples st))),
     set_measureTimingCounter
       ((measureTimingCounter st + 1) `mod` MEASURE_TIMING_EVERY_NUM_FRAMES) st).
Proof.
  intros Hlen Hknn. unfold computeConfidences, shares. unfold_M.
  cbn beta iota zeta. f_equal. f_equal. f_equal.
  apply map_ext_in. intros c Hc. apply in_seq in Hc.
  rewrite classTopKMap_votes; [reflexivity|exact Hlen| |lia].
  intros i Hi. rewrite <- Hknn.
  apply (topK_range _ (Nat.min TOPK (getNumExamples st))); [|exact Hi].
  rewrite Hknn. lia.
Qed.


(** The continuation of a classifying tick, run on an object whose counters
    are still those of the tick. *)
Lemma computeConfidences_same_counts st st2 knn t frame :
  length (classExampleCount st) = CLASS_COUNT →
  NDArray.values knn = similarities t frame (getNumExamples st) →
  classExampleCount st2 = classExampleCount st →
  computeConfidences topK knn (getNumExamples st) st2
  = (Val (Classified
            (shares topK (classExampleCount st)
               (similarities t frame (getNumExamples st)) (getNumExamples st))),
     set_measureTimingCounter
       ((measureTimingCounter st2 + 1) `mod` MEASURE_TIMING_EVERY_NUM_FRAMES) st2).
Proof.
  intros Hlen Hknn Hsame.
  assert (Hk : length (NDArray.values knn) = getNumExamples st2).
  { rewrite Hknn, similarities_length. symmetry.
    now apply getNumExamples_counts. }
  rewrite <- Hknn, <- (getNumExamples_counts st st2 Hsame), <- Hsame.
  apply computeConfidences_later; [now rewrite Hsame|exact Hk].
Qed.

(** When no call changes the counters between a classifying tick and its
    continuation, [K = min(10, n)] rows are selected among the [n]
    similarities of the frame with the rows of the training matrix, and
    each class gets the number of selected rows in its range, divided by
    [K]; these numbers sum to at most 1. *)
Lemma computeConfidences_undisturbed st frame :
  Inv st → isDown st = false → 0 < getNumExamples st →
  NDArray.size frame = INPUT_SIZE →
  ∃ t knn st1,
    animate_begin frame st = (Val (Awaiting knn (getNumExamples st)), st1)
    ∧ trainLogitsMatrix st1 = Some t
    ∧ NDArray.values knn = similarities t frame (getNumExamples st)
    ∧ ∀ st2, classExampleCount st2 = classExampleCount st →
        let K := Nat.min 10 (getNumExamples st) in
        let selected := topK (NDArray.values knn) K in
        ∃ confidences st3,
          computeConfidences topK knn (getNumExamples st) st2
          = (Val (Classified confidences), st3)
          ∧ length selected = K
          ∧ confidences
            = map (λ c, (INR (votes (classExampleCount st) selected c)
                           / INR K)%R)
                (seq 0 CLASS_COUNT)
          ∧ (sumR confidences <= 1)%R.
Proof.
  intros HI Hd Hpos Hsize.
  destruct (animate_begin_ok st frame HI Hd Hpos Hsize)
    as (t & knn & Hrun & Hknn & _).
  pose proof (inv_length st HI) as Hlen.
  exists t, knn, (set_trainLogitsMatrix (Some t) st).
  split; [exact Hrun|]. split; [reflexivity|]. split; [exact Hknn|].
  intros st2 Hsame. cbv zeta.
  eexists _, _.
  split; [exact (computeConfidences_same_counts st st2 knn t frame
                   Hlen Hknn Hsame)|].
  rewrite Hknn. split; [|split; [reflexivity|]].
  - apply topK_length. rewrite similarities_length. unfold TOPK. lia.
  - change (sumR (shares topK (classExampleCount st)
                    (similarities t frame (getNumExamples st))
                    (getNumExamples st)) <= 1)%R.
    unfold shares.
    rewrite (map_ext_in _
               (λ index,
                  (INR (classTopKMap st
                          (topK (similarities t frame (getNumExamples st))
                             (Nat.min TOPK (getNumExamples st))) !!! index)
                     / INR (Nat.min TOPK (getNumExamples st)))%R)).
    + rewrite sumR_confidences; [lra|apply classTopKMap_length|
                                  |unfold TOPK; lia].
      rewrite classTopKMap_sum. apply topK_length.
      rewrite similarities_length. lia.
    + intros c Hc. apply in_seq in Hc.
      rewrite classTopKMap_votes; [reflexivity|exact Hlen| |lia].
      intros i Hi.
      rewrite <- (similarities_length t frame (getNumExamples st)).
      apply (topK_range _ (Nat.min TOPK (getNumExamples st))); [|exact Hi].
      rewrite similarities_length. lia.
Qed.

(** X5.  On a consistent object that holds at most [TOPK] = 10 examples, a
    classifying tick selects every row, so the confidences do not depend on
    the frame: when the continuation runs with the counters the tick saw
    (no class cleared in between), the confidence of a class is its share
    of the stored examples. *)
Theorem animate_few_examples (st : WebcamClassifier) (frame : NDArray) :
  Inv st → isDown st = false → 0 < getNumExamples st →
  getNumExamples st ≤ TOPK →
  NDArray.size frame = INPUT_SIZE →
  ∃ knn st1,
    animate_begin frame st = (Val (Awaiting knn (getNumExamples st)), st1)
    ∧ ∀ st2, classExampleCount st2 = classExampleCount st →
        ∃ st3,
          computeConfidences topK knn (getNumExamples st) st2
          = (Val (Classified
                    (map (λ c, (INR (classExampleCount st !!! c)
                                  / INR (getNumExamples st))%R)
                       (seq 0 CLASS_COUNT))),
             st3).
Proof.
  intros HI Hd Hpos Hfew Hsize.
  destruct (animate_begin_ok st frame HI Hd Hpos Hsize)
    as (t & knn & Hrun & Hknn & _).
  pose proof (inv_length st HI) as Hlen.
  exists knn, (set_trainLogitsMatrix (Some t) st). split; [exact Hrun|].
  intros st2 Hsame. eexists.
  rewrite (computeConfidences_same_counts st st2 knn t frame Hlen Hknn Hsame).
  f_equal. f_equal. f_equal.
  unfold shares. apply map_ext_in. intros c Hc. apply in_seq in Hc.
  assert (HK : Nat.min TOPK (getNumExamples st) = getNumExamples st) by lia.
  assert (Hperm : topK (similarities t frame (getNumExamples st))
                    (Nat.min TOPK (getNumExamples st))
                  ≡ₚ seq 0 (getNumExamples st)).
  { apply submseteq_length_Permutation.
    - apply NoDup_submseteq.
      + apply topK_NoDup. rewrite similarities_length. lia.
      + intros i Hi. apply elem_of_seq.
        apply (topK_range _ (Nat.min TOPK (getNumExamples st))) in Hi;
          rewrite similarities_length in *; lia.
    - rewrite length_seq, topK_length; [lia|].
      rewrite similarities_length. lia. }
  rewrite (votes_Permutation _ _ _ c Hperm), HK.
  rewrite getNumExamples_sum at 1. rewrite votes_seq by lia. reflexivity.
Qed.

(** X6.  On a consistent object, a class whose counter is 0 gets
    confidence 0 from a classifying tick whose continuation runs with the
    counters the tick saw (no class cleared in between). *)
Theorem animate_empty_class (st : WebcamClassifier) (frame : NDArray)
    (c : nat) :
  Inv st → isDown st = false → 0 < getNumExamples st →
  NDArray.size frame = INPUT_SIZE →
  classExampleCount st !! c = Some 0 →
  ∃ knn st1,
    animate_begin frame st = (Val (Awaiting knn (getNumExamples st)), st1)
    ∧ ∀ st2, classExampleCount st2 = classExampleCount st →
        ∃ confidences st3,
          computeConfidences topK knn (getNumExamples st) st2
          = (Val (Classified confidences), st3)
          ∧ confidences !! c = Some 0%R.
Proof.
  intros HI Hd Hpos Hsize Hc.
  destruct (animate_begin_ok st frame HI Hd Hpos Hsize)
    as (t & knn & Hrun & Hknn & _).
  pose proof (inv_length st HI) as Hlen.
  exists knn, (set_trainLogitsMatrix (Some t) st). split; [exact Hrun|].
  intros st2 Hsame. eexists _, _.
  split; [exact (computeConfidences_same_counts st st2 knn t frame
                   Hlen Hknn Hsame)|].
  apply shares_empty_class; [exact Hc|].
  rewrite <- Hlen. eapply lookup_lt_Some, Hc.
Qed.

(** X21.  Clearing a class and classifying next, on a consistent object:
    with the training matrix cached, [deleteClassData] on a class that has
    [n] examples lowers [getNumExamples()] by [n]; if examples of other
    classes remain, the next classifying tick rebuilds the training matrix
    from the slots that are left, one row per remaining example, and, when
    its continuation runs with the counters the tick saw, gives the cleared
    class confidence 0. *)
Theorem deleteClassData_then_classify (st : WebcamClassifier) (index n : nat)
    (a t : NDArray) (frame : NDArray) :
  Inv st → isDown st = false →
  trainClassLogitsMatrices st !! index = Some (Some a) →
  classExampleCount st !! index = Some n →
  trainLogitsMatrix st = Some t →
  n < getNumExamples st →
  NDArray.size frame = INPUT_SIZE →
  ∃ st1 knn st2 t',
    deleteClassData index st = (Val (), st1)
    ∧ getNumExamples st1 + n = getNumExamples st
    ∧ animate_begin frame st1 = (Val (Awaiting knn (getNumExamples st1)), st2)
    ∧ trainLogitsMatrix st2 = Some t'
    ∧ NDArray.size t' = getNumExamples st1 * INPUT_SIZE
    ∧ NDArray.values t'
      = mjoin (NDArray.values <$> storedMatrices (trainClassLogitsMatrices st1))
    ∧ ∀ st3, classExampleCount st3 = classExampleCount st1 →
        ∃ confidences st4,
          computeConfidences topK knn (getNumExamples st1) st3
          = (Val (Classified confidences), st4)
          ∧ confidences !! index = Some 0%R.
Proof.
  intros HI Hd Hm Hn Ht Hmore Hsize.
  destruct (deleteClassData_cached st index a t HI Hm Ht)
    as (name & i & s & Hname & Hcls & Hrun).
  set (st1 := set_classes <[name := mkClassEntry i 0]>
                (set_classExampleCount <[index := 0]>
                   (set_trainLogitsMatrix None
                      (set_trainClassLogitsMatrices <[index := None]> st)))) in *.
  assert (HI1 : Inv st1).
  { apply (Inv_sampleCount _ name (mkClassEntry i s) 0);
      [now apply Inv_slot_cleared|exact Hcls]. }
  assert (Hsum : getNumExamples st1 + n = getNumExamples st).
  { rewrite !getNumExamples_sum. apply sum_list_insert_0. exact Hn. }
  assert (Hpos : 0 < getNumExamples st1) by lia.
  destruct (animate_begin_ok st1 frame HI1 Hd Hpos Hsize)
    as (t' & knn & Hrun' & Hknn & Ht' & _ & Hnew).
  pose proof (inv_length st1 HI1) as Hlen1.
  exists st1, knn, (set_trainLogitsMatrix (Some t') st1), t'.
  split; [exact Hrun|]. split; [exact Hsum|]. split; [exact Hrun'|].
  split; [reflexivity|]. split; [exact Ht'|]. split; [now apply Hnew|].
  intros st3 Hsame. eexists _, _.
  split; [exact (computeConfidences_same_counts st1 st3 knn t' frame
                   Hlen1 Hknn Hsame)|].
  pose proof (lookup_lt_Some _ _ _ Hn) as Hlt.
  rewrite (inv_length st HI) in Hlt.
  apply shares_empty_class; [|exact Hlt].
  apply list_lookup_insert_eq. exact (lookup_lt_Some _ _ _ Hn).
Qed.

End Later.

Lemma animate_few_examples_witness :
  ∃ knn st1,
    animate_begin frame_ones five_three
    = (Val (Awaiting knn (getNumExamples five_three)), st1)
    ∧ ∀ st2, classExampleCount st2 = classExampleCount five_three →
        ∃ st3,
          computeConfidences firstK knn (getNumExamples five_three) st2
          = (Val (Classified
                    (map (λ c, (INR (classExampleCount five_three !!! c)
                                  / INR (getNumExamples five_three))%R)
                       (seq 0 CLASS_COUNT))),
             st3).
Proof.
  apply (animate_few_examples firstK firstK_length firstK_range firstK_NoDup
           five_three frame_ones).
  - exact five_three_Inv.
  - reflexivity.
  - vm_compute. lia.
  - vm_compute. lia.
  - reflexivity.
Defined.

Lemma animate_empty_class_witness :
  ∃ knn st1,
    animate_begin frame_ones five_three
    = (Val (Awaiting knn (getNumExamples five_three)), st1)
    ∧ ∀ st2, classExampleCount st2 = classExampleCount five_three →
        ∃ confidences st3,
          computeConfidences firstK knn (getNumExamples five_three) st2
          = (Val (Classified confidences), st3)
          ∧ confidences !! 2 = Some 0%R.
Proof.
  apply (animate_empty_class firstK firstK_range five_three frame_ones 2).
  - exact five_three_Inv.
  - reflexivity.
  - vm_compute. lia.
  - reflexivity.
  - reflexivity.
Defined.

Lemma deleteClassData_then_classify_witness :
  ∃ st1 knn st2 t',
    deleteClassData 1 five_three_cached = (Val (), st1)
    ∧ getNumExamples st1 + 3 = getNumExamples five_three_cached
    ∧ animate_begin frame_ones st1
      = (Val (Awaiting knn (getNumExamples st1)), st2)
    ∧ trainLogitsMatrix st2 = Some t'
    ∧ NDArray.size t' = getNumExamples st1 * INPUT_SIZE
    ∧ NDArray.values t'
      = mjoin (NDArray.values <$> storedMatrices (trainClassLogitsMatrices st1))
    ∧ ∀ st3, classExampleCount st3 = classExampleCount st1 →
        ∃ confidences st4,
          computeConfidences firstK knn (getNumExamples st1) st3
          = (Val (Classified confidences), st4)
          ∧ confidences !! 1 = Some 0%R.
Proof.
  apply (deleteClassData_then_classify firstK firstK_range five_three_cached
           1 3 (slotMatrix five_three_cached 1)
           (cachedMatrix five_three_cached) frame_ones).
  - exact five_three_cached_Inv.
  - reflexivity.
  - reflexivity.
  - reflexivity.
  - reflexivity.
  - vm_compute. lia.
  - reflexivity.
Defined.

(** * C2: a class cleared between a tick and its continuation *)

(** What [classTopKMap] counts for a class: the selected rows that
    [getClassFromIndex] gives to it. *)
Lemma classTopKMap_tally st selected c :
  c < CLASS_COUNT →
  classTopKMap st selected !!! c
  = length (filter (λ i, getClassFromIndex st i = c) selected).
Proof.
  intros Hc. unfold classTopKMap.
  rewrite tally_lookup by exact Hc.
  destruct c as [|[|[|c]]]; [reflexivity..|unfold CLASS_COUNT in Hc; lia].
Qed.

Lemma classTopKMap_Permutation st l l' c :
  c < CLASS_COUNT → l ≡ₚ l' →
  classTopKMap st l !!! c = classTopKMap st l' !!! c.
Proof. intros Hc H. rewrite !classTopKMap_tally by exact Hc. now rewrite H. Qed.

Lemma getClassFromIndex_counts st st' i :
  classExampleCount st' = classExampleCount st →
  getClassFromIndex st' i = getClassFromIndex st i.
Proof. intros H. unfold getClassFromIndex. now rewrite H. Qed.

Lemma classTopKMap_counts st st' l :
  classExampleCount st' = classExampleCount st →
  classTopKMap st' l = classTopKMap st l.
Proof.
  intros H. unfold classTopKMap.
  assert (Hf : ∀ acc : list nat,
             foldl (λ acc i, alter S (getClassFromIndex st' i) acc) acc l
             = foldl (λ acc i, alter S (getClassFromIndex st i) acc) acc l).
  { induction l as [|i l IH]; intros acc; simpl; [reflexivity|].
    now rewrite IH, (getClassFromIndex_counts st st' i H). }
  apply Hf.
Qed.

(** Asked for as many rows as there are, [topK] answers all of them. *)
Lemma topK_all (topK : list R → nat → list nat) (v : list R) :
  (∀ v k, k ≤ length v → length (topK v k) = k) →
  (∀ v k i, k ≤ length v → i ∈ topK v k → i < length v) →
  (∀ v k, k ≤ length v → NoDup (topK v k)) →
  topK v (length v) ≡ₚ seq 0 (length v).
Proof.
  intros Hlen Hrange Hnodup.
  apply submseteq_length_Permutation.
  - apply NoDup_submseteq; [now apply Hnodup|].
    intros i Hi. apply elem_of_seq. apply Hrange in Hi; lia.
  - rewrite length_seq, Hlen; lia.
Qed.

Section ClearedInBetween.

Variable topK : list R → nat → list nat.
Hypothesis topK_length : ∀ v k, k ≤ length v → length (topK v k) = k.
Hypothesis topK_range : ∀ v k i, k ≤ length v → i ∈ topK v k → i < length v.
Hypothesis topK_NoDup : ∀ v k, k ≤ length v → NoDup (topK v k).

(** C2, at a failing input: with five examples of A, three of B and none
    of C (its slot is null), a classifying tick computes the eight
    similarities and returns;
    [deleteClassData(0)] is called before the continuation runs.  The
    continuation selects all eight rows, five of them rows of A and three
    rows of B, and hands to [setConfidences] 0 for A, 3/8 for B and 5/8
    for C: it reads the counters as the clear left them, so the three rows
    of B count for B and the five rows of A fall through to the last
    class. *)
Theorem computeConfidences_after_clear :
  ∃ knn st1 st2 st3,
    classExampleCount five_three = [5; 3; 0]
    ∧ trainClassLogitsMatrices five_three !! 2 = Some None
    ∧ animate_begin frame_ones five_three = (Val (Awaiting knn 8), st1)
    ∧ length (NDArray.values knn) = 8
    ∧ map (votes (classExampleCount five_three)
             (topK (NDArray.values knn) (Nat.min 10 8))) [0; 1; 2]
      = [5; 3; 0]
    ∧ deleteClassData 0 st1 = (Val (), st2)
    ∧ classExampleCount st2 = [0; 3; 0]
    ∧ computeConfidences topK knn 8 st2
      = (Val (Classified [0; 3 / 8; 5 / 8]%R), st3).
Proof.
  destruct (animate_begin_ok five_three frame_ones five_three_Inv eq_refl)
    as (t & knn & Hrun & Hknn & Ht & _); [vm_compute; lia|reflexivity|].
  change (getNumExamples five_three) with 8 in *.
  assert (Hk : length (NDArray.values knn) = 8).
  { now rewrite Hknn, similarities_length. }
  assert (Hperm : topK (NDArray.values knn) 8 ≡ₚ seq 0 8).
  { rewrite <- Hk. now apply topK_all. }
  set (st1 := set_trainLogitsMatrix (Some t) five_three) in *.
  assert (HI1 : Inv st1) by (apply Inv_cached; [exact five_three_Inv|exact Ht]).
  destruct (deleteClassData_cached st1 0 (slotMatrix five_three 0) t HI1
              eq_refl eq_refl) as (name & i & s & _ & _ & Hdel).
  eexists knn, st1, _, _.
  split; [reflexivity|]. split; [reflexivity|].
  split; [exact Hrun|]. split; [exact Hk|].
  split; [|split; [exact Hdel|split; [reflexivity|]]].
  - change (Nat.min 10 8) with 8. cbn [map].
    rewrite !(votes_Permutation _ _ _ _ Hperm).
    change 8 with (sum_list (classExampleCount five_three)).
    rewrite !votes_seq by (vm_compute; lia). reflexivity.
  - unfold computeConfidences. unfold_M. cbn beta iota zeta.
    change (Nat.min TOPK 8) with 8.
    match goal with
    | |- (Val (Classified (map _ _)), ?s) = _ =>
        set (st3 := s)
    end.
    f_equal. f_equal. f_equal.
    cbn [map seq CLASS_COUNT].
    match goal with
    | |- context [classTopKMap ?s _] => set (st2 := s)
    end.
    assert (Hc : ∀ c, c < CLASS_COUNT →
                 classTopKMap st2 (topK (NDArray.values knn) 8) !!! c
                 = [0; 3; 5] !!! c).
    { intros c Hc. rewrite (classTopKMap_Permutation _ _ _ c Hc Hperm).
      now rewrite (classTopKMap_counts
                     (set_classExampleCount (λ _, [0; 3; 0]) three_classes)
                     st2 _ eq_refl). }
    rewrite !Hc by (unfold CLASS_COUNT; lia).
    change ([0; 3; 5] !!! 0) with 0. change ([0; 3; 5] !!! 1) with 3.
    change ([0; 3; 5] !!! 2) with 5.
    repeat f_equal; simpl; lra.
Qed.

End ClearedInBetween.

Lemma computeConfidences_after_clear_witness :
  ∃ knn st1 st2 st3,
    classExampleCount five_three = [5; 3; 0]
    ∧ trainClassLogitsMatrices five_three !! 2 = Some None
    ∧ animate_begin frame_ones five_three = (Val (Awaiting knn 8), st1)
    ∧ length (NDArray.values knn) = 8
    ∧ map (votes (classExampleCount five_three)
             (firstK (NDArray.values knn) (Nat.min 10 8))) [0; 1; 2]
      = [5; 3; 0]
    ∧ deleteClassData 0 st1 = (Val (), st2)
    ∧ classExampleCount st2 = [0; 3; 0]
    ∧ computeConfidences firstK knn 8 st2
      = (Val (Classified [0; 3 / 8; 5 / 8]%R), st3).
Proof.
  apply (computeConfidences_after_clear firstK firstK_length firstK_range
           firstK_NoDup).
Defined.
